(** * QA Provisioner (src/app.py): environment lifecycle

    A shallow embedding of the provisioning service of [src/app.py]:
    provision, destroy, list and gc over the in-memory table [STATE] that
    is mirrored in state.json, and the properties of that lifecycle.

    The service talks to the outside world all the time: it launches
    processes, queries two HTTP endpoints, reads the clock, draws a random
    suffix, touches the file system.  Every such call is logged in a
    trace, and what the outside world answers is given by an oracle that
    sees the whole trace so far.  The functions are written in a monad of
    state and exceptions over that world; all theorems hold for every
    configuration and every oracle.

    What can go wrong is what the code itself provides for: a command that
    exits with a non-zero code, a branch lookup that does not answer 200, a
    missing setting, a tunnel that does not come up, a tree that cannot be
    removed; and, for the store, a state.json that cannot be rewritten.
    Creating a directory and logging to stdout are taken to succeed.

    Three things are outside the model.  A program that cannot be launched
    at all (docker, git or ngrok not installed) makes subprocess raise
    instead of returning an exit code; here every launch gives an exit
    code.  White space outside ASCII, which str.strip() removes too, is
    not white space for [Py.strip].  And a write of state.json that fails
    leaves the old contents in the model, whereas write_text has already
    truncated the file when it opened it.

    Layout: the program; the vocabulary of the properties; concrete
    configurations for the examples; the reasoning; the claims C1-C10. *)

From Stdlib Require Import ZArith Ascii String List.
From stdpp Require Import base gmap strings list fin_maps pretty.

Local Open Scope string_scope.
Local Open Scope list_scope.
Local Open Scope Z_scope.

(** ** Python string helpers *)

Module Py.

(** [s.replace(a, b)] for one-character [a] and [b]. *)
Fixpoint replace (a b : ascii) (s : string) : string :=
  match s with
  | EmptyString => EmptyString
  | String c s' => String (if Ascii.eqb c a then b else c) (replace a b s')
  end.

(** [s[:n]] *)
Fixpoint take (n : nat) (s : string) : string :=
  match n, s with
  | S n', String c s' => String c (take n' s')
  | _, _ => EmptyString
  end.

(** [sep.join(l)] *)
Fixpoint join (sep : string) (l : list string) : string :=
  match l with
  | [] => ""
  | [x] => x
  | x :: rest => x +:+ sep +:+ join sep rest
  end.

(** White space as [str.strip()] sees it on ASCII text. *)
Definition is_space (c : ascii) : bool :=
  let n := nat_of_ascii c in
  ((9 <=? n) && (n <=? 13) || (n =? 32) || ((28 <=? n) && (n <=? 31)))%nat.

Fixpoint lstrip (s : string) : string :=
  match s with
  | String c s' => if is_space c then lstrip s' else s
  | EmptyString => EmptyString
  end.

Fixpoint rstrip (s : string) : string :=
  match s with
  | EmptyString => EmptyString
  | String c s' =>
      match rstrip s' with
      | EmptyString => if is_space c then EmptyString else String c EmptyString
      | t => String c t
      end
  end.

Definition strip (s : string) : string := rstrip (lstrip s).

(** Truth value of an [Optional[str]]: [None] and [""] are falsy. *)
Definition truthy (o : option string) : bool :=
  match o with
  | Some s => negb (String.eqb s "")
  | None => false
  end.

(** How an f-string renders an [Optional[str]]. *)
Definition fmt (o : option string) : string :=
  match o with
  | Some s => s
  | None => "None"
  end.

(** The line feed of ["\n"]. *)
Definition nl : string := String (ascii_of_nat 10) EmptyString.

End Py.

(** ** Configuration (lines 11-25) *)

Record Config := mkConfig {
  BASE : string;                    (* str(BASE), line 11 *)
  GITHUB_TOKEN : option string;
  OWNER : option string;
  REPO : option string;
  DOCKER_NETWORK : string;
  DEFAULT_TTL : Z;
  ALLOWED : list string;            (* the set of line 23 *)
  NGROK_AUTHTOKEN : option string;
  NGROK_REGION : string
}.

(** ** Requests, records and responses *)

Record ProvisionReq := mkProvisionReq {
  branch : string;
  service : string;
  ttl_minutes : option Z
}.

(** The dict stored under an env_id (lines 120-124). *)
Record EnvRec := mkEnvRec {
  env_branch : string;
  sha : string;
  url : string;
  port : Z;
  workdir : string;
  created_at : Z;
  expires_at : Z
}.

(** What provision returns (line 126). *)
Record ProvisionResp := mkProvisionResp {
  resp_env_id : string;
  resp_url : string;
  resp_expires_at : Z;
  resp_sha : string
}.

Record DestroyReq := mkDestroyReq {
  env_id : string
}.

(** One entry of /list (line 151): the id, the record, the minutes left. *)
Record EnvItem := mkEnvItem {
  item_env_id : string;
  item_env : EnvRec;
  ttl_min : Z
}.

(** ** Exceptions *)

Inductive Exc : Type :=
| HTTPException (status_code : Z) (detail : string)
| OSError
| KeyError (key : string).

(** The error kinds of the specification, by status code. *)
Definition InvalidInput (e : Exc) : Prop := ∃ d, e = HTTPException 400 d.
Definition NotFound (e : Exc) : Prop := ∃ d, e = HTTPException 404 d.

(** ** Effects and the outside world *)

Inductive Event : Type :=
| EvRun (cmd : list string) (cwd : option string)  (* subprocess.run *)
| EvPopen (cmd : list string)                      (* subprocess.Popen *)
| EvTerminate                                      (* proc.terminate() *)
| EvGet (url : string)                             (* requests.get *)
| EvMkdir (path : string)
| EvExists (path : string)
| EvRmtree (path : string)
| EvSleep
| EvTime
| EvUuid4
| EvWriteState.                                    (* STATE_DB.write_text *)

Record CompletedProcess := mkCompleted {
  returncode : Z;
  stdout : string;
  stderr : string
}.

(** An entry of the "tunnels" array of the ngrok agent API; a key may be
    missing. *)
Record Tunnel := mkTunnel {
  proto : option string;
  public_url : option string
}.

(** The oracle.  Each answer depends on the trace so far, most recent event
    first; the event being answered is its head. *)
Record Ext := mkExt {
  ext_run : list Event → CompletedProcess;
  ext_ref : list Event → Z * string;         (* status code, object.sha *)
  ext_tunnels : list Event → option (list Tunnel); (* None: the GET raised *)
  ext_exists : list Event → bool;
  ext_rmtree : list Event → bool;            (* did the tree go away? *)
  ext_time : list Event → Z;
  ext_uuid4_hex : list Event → string;
  ext_write : list Event → bool              (* did write_text succeed? *)
}.

(** The state of the service and of the part of the disk it owns. *)
Record World := mkWorld {
  STATE : gmap string EnvRec;      (* the dict of line 16 *)
  STATE_DB : gmap string EnvRec;   (* what state.json holds *)
  dirs : gset string;              (* directories present on disk *)
  trace : list Event
}.

(** ** The monad: state and exceptions *)

Definition M (A : Type) : Type := World → (Exc + A) * World.

Global Instance M_ret : MRet M := λ A a w, (inr a, w).
Global Instance M_bind : MBind M := λ A B k m w,
  match m w with
  | (inl e, w') => (inl e, w')
  | (inr a, w') => k a w'
  end.

Definition raise {A} (e : Exc) : M A := λ w, (inl e, w).

(** [try: m except: h] *)
Definition try_except {A} (m : M A) (h : Exc → M A) : M A := λ w,
  match m w with
  | (inl e, w') => h e w'
  | r => r
  end.

Definition emit (ev : Event) : M unit := λ w,
  (inr tt, mkWorld (STATE w) (STATE_DB w) (dirs w) (ev :: trace w)).

(** Ask the oracle about the event just logged. *)
Definition ask {A} (f : list Event → A) : M A := λ w, (inr (f (trace w)), w).

Definition get_STATE : M (gmap string EnvRec) := λ w, (inr (STATE w), w).

Definition set_STATE (f : gmap string EnvRec → gmap string EnvRec) : M unit := λ w,
  (inr tt, mkWorld (f (STATE w)) (STATE_DB w) (dirs w) (trace w)).

Definition set_dirs (f : gset string → gset string) : M unit := λ w,
  (inr tt, mkWorld (STATE w) (STATE_DB w) (f (dirs w)) (trace w)).

Definition flush_STATE : M unit := λ w,
  (inr tt, mkWorld (STATE w) (STATE w) (dirs w) (trace w)).

(** ** The service *)

Section App.

Context (cfg : Config) (ext : Ext).

(** Lines 35-36.  A failed write raises; the model keeps the old contents
    of the file then (write_text may have truncated it). *)
Definition save_state : M unit :=
  emit EvWriteState;;
  ok ← ask (ext_write ext);
  if ok : bool then flush_STATE else raise OSError.

(** Lines 38-43; the echo of the command on stdout is part of the event. *)
Definition run (cmd : list string) (cwd : option string) : M string :=
  emit (EvRun cmd cwd);;
  p ← ask (ext_run ext);
  if negb (returncode p =? 0) then
    raise (HTTPException 500
             ("Erro: " +:+ Py.join " " cmd +:+ Py.nl +:+ stdout p +:+ Py.nl +:+ stderr p))
  else mret (Py.strip (stdout p)).

(** Lines 45-52. *)
Definition gh_branch_exists (branch : string) : M string :=
  if negb (Py.truthy (GITHUB_TOKEN cfg)) || negb (Py.truthy (OWNER cfg))
     || negb (Py.truthy (REPO cfg))
  then raise (HTTPException 400 "GitHub vars não configuradas")
  else
    emit (EvGet ("https://api.github.com/repos/" +:+ Py.fmt (OWNER cfg) +:+ "/"
                 +:+ Py.fmt (REPO cfg) +:+ "/git/refs/heads/" +:+ branch));;
    r ← ask (ext_ref ext);
    if negb (r.1 =? 200) then
      raise (HTTPException 404
               ("Branch '" +:+ branch +:+ "' não encontrada (" +:+ pretty r.1 +:+ ")"))
    else mret r.2.

(** Lines 54-58. *)
Definition ensure_network : M unit :=
  try_except
    (run ["docker"; "network"; "inspect"; DOCKER_NETWORK cfg] None;; mret tt)
    (λ _, run ["docker"; "network"; "create"; DOCKER_NETWORK cfg] None;; mret tt).

(** Lines 75-80: one look at the agent API.  Anything that goes wrong in
    there, a missing "public_url" included, is swallowed. *)
Definition poll_tunnel : M (option string) :=
  try_except
    (emit (EvGet "http://127.0.0.1:4040/api/tunnels");;
     j ← ask (ext_tunnels ext);
     match j with
     | None => raise OSError
     | Some tunnels =>
         match filter (λ t, proto t = Some "http") tunnels with
         | [] => mret None
         | t :: _ =>
             match public_url t with
             | Some u => mret (Some u)
             | None => raise (KeyError "public_url")
             end
         end
     end)
    (λ _, mret None).

(** Lines 73-81: [for _ in range(n)]. *)
Fixpoint wait_tunnel (n : nat) : M (option string) :=
  match n with
  | O => mret None
  | S n' =>
      r ← poll_tunnel;
      match r with
      | Some u => mret (Some u)
      | None => emit EvSleep;; wait_tunnel n'
      end
  end.

(** Lines 60-83. *)
Definition start_ngrok (port : Z) : M string :=
  if negb (Py.truthy (NGROK_AUTHTOKEN cfg)) then
    raise (HTTPException 400 "NGROK_AUTHTOKEN ausente")
  else
    try_except
      (run ["ngrok"; "config"; "add-authtoken"; Py.fmt (NGROK_AUTHTOKEN cfg)] None;;
       mret tt)
      (λ _, mret tt);;
    emit (EvPopen ["ngrok"; "http"; pretty port; "--region"; NGROK_REGION cfg]);;
    r ← wait_tunnel 40;
    match r with
    | Some u => mret u
    | None =>
        emit EvTerminate;;
        raise (HTTPException 500 "Falha ao abrir túnel ngrok")
    end.

(** [BASE / name] rendered as a string, for a name that is one relative
    path segment. *)
Definition path_join (dir name : string) : string := dir +:+ "/" +:+ name.

(** Line 91. *)
Definition make_env_id (branch sha hex : string) : string :=
  Py.replace "/" "-" branch +:+ "-" +:+ Py.take 7 sha +:+ "-" +:+ Py.take 6 hex.

Definition mkdir (path : string) : M unit :=
  emit (EvMkdir path);;
  set_dirs (λ d, {[path]} ∪ d).

Definition path_exists (path : string) : M bool :=
  emit (EvExists path);;
  ask (ext_exists ext).

(** [shutil.rmtree(path, ignore_errors=True)] *)
Definition rmtree (path : string) : M unit :=
  emit (EvRmtree path);;
  gone ← ask (ext_rmtree ext);
  if gone : bool then set_dirs (λ d, d ∖ {[path]}) else mret tt.

Definition time : M Z :=
  emit EvTime;;
  ask (ext_time ext).

Definition uuid4_hex : M string :=
  emit EvUuid4;;
  ask (ext_uuid4_hex ext).

(** Line 117: [req.ttl_minutes or DEFAULT_TTL]. *)
Definition ttl_or_default (t : option Z) : Z :=
  match t with
  | Some n => if n =? 0 then DEFAULT_TTL cfg else n
  | None => DEFAULT_TTL cfg
  end.

(** Lines 85-126.  The allow-list is kept as a list; the message of line 88
    joins it in that order. *)
Definition provision (req : ProvisionReq) : M ProvisionResp :=
  if negb (bool_decide (service req ∈ ALLOWED cfg)) then
    raise (HTTPException 400
             ("service inválido. Aceitos: " +:+ Py.join ", " (ALLOWED cfg)))
  else
    sha ← gh_branch_exists (branch req);
    hex ← uuid4_hex;
    let env_id := make_env_id (branch req) sha hex in
    let workdir := path_join (BASE cfg) env_id in
    mkdir workdir;;
    run ["git"; "clone";
         "https://" +:+ Py.fmt (GITHUB_TOKEN cfg) +:+ ":x-oauth-basic@github.com/"
         +:+ Py.fmt (OWNER cfg) +:+ "/" +:+ Py.fmt (REPO cfg) +:+ ".git"; "."]
        (Some workdir);;
    run ["git"; "checkout"; branch req] (Some workdir);;
    ensure_network;;
    compose ← path_exists (path_join workdir "docker-compose.qa.yml");
    port ← (if compose : bool then
              run ["docker"; "compose"; "-f"; "docker-compose.qa.yml"; "up"; "-d";
                   "--build"] (Some workdir);;
              mret 8080
            else
              let image := env_id +:+ ":" +:+ service req in
              run ["docker"; "build"; "-t"; image; "."] (Some workdir);;
              let port := 8080 in
              run ["docker"; "run"; "-d"; "--name"; env_id;
                   "--network"; DOCKER_NETWORK cfg;
                   "-p"; pretty port +:+ ":" +:+ pretty port; image] None;;
              mret port);
    url ← start_ngrok port;
    let ttl := ttl_or_default (ttl_minutes req) in
    now ← time;
    let expires_at := now + ttl * 60 in
    created ← time;
    set_STATE (insert env_id
                 (mkEnvRec (branch req) sha url port workdir created expires_at));;
    save_state;;
    mret (mkProvisionResp env_id url expires_at sha).

(** Lines 128-144; [True] of the reply is the returned boolean.  A record
    is never an empty dict, so [not env] is the absence of the id. *)
Definition destroy (req : DestroyReq) : M bool :=
  st ← get_STATE;
  match st !! env_id req with
  | None => raise (HTTPException 404 "env_id não encontrado")
  | Some env =>
      let workdir := workdir env in
      compose ← path_exists (path_join workdir "docker-compose.qa.yml");
      (if compose : bool then
         try_except
           (run ["docker"; "compose"; "-f"; "docker-compose.qa.yml"; "down"; "-v"]
                (Some workdir);; mret tt)
           (λ _, mret tt)
       else
         try_except
           (run ["docker"; "rm"; "-f"; env_id req] None;; mret tt)
           (λ _, mret tt));;
      try_except (rmtree workdir) (λ _, mret tt);;
      set_STATE (delete (env_id req));;
      save_state;;
      mret true
  end.

(** Lines 146-152.  The dict is walked in the order of [map_to_list]. *)
Definition list_envs : M (list EnvItem) :=
  now ← time;
  st ← get_STATE;
  mret ((λ kv, mkEnvItem kv.1 kv.2 (Z.max 0 ((expires_at kv.2 - now) `div` 60)))
          <$> map_to_list st).

(** [STATE[k]] *)
Definition getitem (k : string) : M EnvRec :=
  st ← get_STATE;
  match st !! k with
  | Some v => mret v
  | None => raise (KeyError k)
  end.

(** Lines 158-164: the loop over the snapshot [list(STATE.items())]. *)
Fixpoint gc_loop (now : Z) (items : list (string * EnvRec)) (killed : list string)
  : M (list string) :=
  match items with
  | [] => mret killed
  | (env_id, _) :: rest =>
      v ← getitem env_id;
      if expires_at v <=? now then
        killed' ← try_except
                    (destroy (mkDestroyReq env_id);; mret (killed ++ [env_id]))
                    (λ _, mret killed);
        gc_loop now rest killed'
      else gc_loop now rest killed
  end.

(** Lines 154-165. *)
Definition garbage_collect : M (list string) :=
  now ← time;
  st ← get_STATE;
  gc_loop now (map_to_list st) [].

End App.

(** ** Module-level settings *)

(** [s.split(c)] for a one-character separator. *)
Fixpoint split_on (c : ascii) (s : string) : list string :=
  match s with
  | EmptyString => [EmptyString]
  | String a s' =>
      if Ascii.eqb a c then EmptyString :: split_on c s'
      else match split_on c s' with
           | h :: t => String a h :: t
           | [] => [String a EmptyString]
           end
  end.

(** Every character is an ASCII one. *)
Fixpoint is_ascii (s : string) : bool :=
  match s with
  | EmptyString => true
  | String c s' => (nat_of_ascii c <? 128)%nat && is_ascii s'
  end.

(** Line 23: the allow-list read from ALLOWED_SERVICES, whose value is [raw]
    ([None] when the variable is unset).  The source makes a set of it;
    membership in the list is membership in that set. *)
Definition parse_allowed (raw : option string) : list string :=
  let s := match raw with Some s => s | None => "web,api" end in
  Py.strip <$> filter (λ s, Py.strip s ≠ "") (split_on "," s).

(** ** Specification vocabulary *)

Section Spec.

Context (cfg : Config) (ext : Ext).

(** [sat m R E]: every run of [m] relates the worlds before and after by
    [R], and an exception that escapes satisfies [E]. *)
Definition sat {A} (m : M A) (R : relation World) (E : Exc → Prop) : Prop :=
  ∀ w r w', m w = (r, w') → R w w' ∧ ∀ e, r = inl e → E e.

(** No exception at all; an HTTP error with one of the given codes. *)
Definition never : Exc → Prop := λ _, False.
Definition http (codes : list Z) : Exc → Prop :=
  λ e, ∃ c d, e = HTTPException c d ∧ c ∈ codes.

(** Commands and calls that undo a deployment: removing a container,
    bringing a stack down, deleting a tree. *)
Definition teardown_cmd (cmd : list string) : bool :=
  match cmd with
  | a :: b :: rest =>
      String.eqb a "docker"
      && (String.eqb b "rm"
          || (String.eqb b "compose" && bool_decide ("down" ∈ rest)))
  | _ => false
  end.

Definition is_teardown (ev : Event) : bool :=
  match ev with
  | EvRmtree _ => true
  | EvRun cmd _ => teardown_cmd cmd
  | _ => false
  end.

(** The table and its file are untouched. *)
Definition same_store (w w' : World) : Prop :=
  STATE w' = STATE w ∧ STATE_DB w' = STATE_DB w.

(** Nothing of the service's own state changes and nothing is torn down:
    the trace grows by events that are not teardowns. *)
Definition quiet (w w' : World) : Prop :=
  STATE w' = STATE w ∧ STATE_DB w' = STATE_DB w ∧ dirs w' = dirs w ∧
  ∃ new, trace w' = new ++ trace w ∧ Forall (λ ev, is_teardown ev = false) new.

(** The id and the workdir that a call computes once the branch resolved
    to [sha] in world [w1] (lines 91-92). *)
Definition new_env_id (req : ProvisionReq) (sha : string) (w1 : World) : string :=
  make_env_id (branch req) sha (ext_uuid4_hex ext (EvUuid4 :: trace w1)).

Definition new_workdir (req : ProvisionReq) (sha : string) (w1 : World) : string :=
  path_join (BASE cfg) (new_env_id req sha w1).

(** The world right after line 93. *)
Definition after_mkdir (wd : string) (w1 : World) : World :=
  mkWorld (STATE w1) (STATE_DB w1) ({[wd]} ∪ dirs w1)
          (EvMkdir wd :: EvUuid4 :: trace w1).

(** The record of lines 120-124, built in world [wp] where the tunnel is up. *)
Definition new_record (req : ProvisionReq) (sha url wd : string) (wp : World) : EnvRec :=
  mkEnvRec (branch req) sha url 8080 wd
           (ext_time ext (EvTime :: EvTime :: trace wp))
           (ext_time ext (EvTime :: trace wp)
            + ttl_or_default cfg (ttl_minutes req) * 60).

(** The world after lines 120-125; [flushed] tells whether state.json was
    rewritten. *)
Definition committed (id : string) (rec : EnvRec) (flushed : bool) (wp : World) : World :=
  mkWorld (<[id := rec]> (STATE wp))
          (if flushed then <[id := rec]> (STATE wp) else STATE_DB wp)
          (dirs wp)
          (EvWriteState :: EvTime :: EvTime :: trace wp).

Inductive provision_outcome (req : ProvisionReq) (w : World)
  : Exc + ProvisionResp → World → Prop :=
| BadService :
    service req ∉ ALLOWED cfg →
    provision_outcome req w
      (inl (HTTPException 400
              ("service inválido. Aceitos: " +:+ Py.join ", " (ALLOWED cfg)))) w
| BadBranch e w' :
    service req ∈ ALLOWED cfg →
    gh_branch_exists cfg ext (branch req) w = (inl e, w') →
    provision_outcome req w (inl e) w'
| DeployFailed sha w1 e w' :
    service req ∈ ALLOWED cfg →
    gh_branch_exists cfg ext (branch req) w = (inr sha, w1) →
    http [400; 500] e →
    quiet (after_mkdir (new_workdir req sha w1) w1) w' →
    provision_outcome req w (inl e) w'
| Committed sha w1 url wp :
    service req ∈ ALLOWED cfg →
    gh_branch_exists cfg ext (branch req) w = (inr sha, w1) →
    quiet (after_mkdir (new_workdir req sha w1) w1) wp →
    let id := new_env_id req sha w1 in
    let rec := new_record req sha url (new_workdir req sha w1) wp in
    let flushed := ext_write ext (EvWriteState :: EvTime :: EvTime :: trace wp) in
    provision_outcome req w
      (if flushed then inr (mkProvisionResp id url (expires_at rec) sha)
       else inl OSError)
      (committed id rec flushed wp).

(** The footprint of a cleanup: the table and its file are untouched,
    directories may go away, the trace grows. *)
Definition shrink (w w' : World) : Prop :=
  same_store w w' ∧ dirs w' ⊆ dirs w ∧ ∃ new, trace w' = new ++ trace w.

(** Line 131. *)
Definition not_found : Exc := HTTPException 404 "env_id não encontrado".

(** The world after the destroy of a present id; [wp] is the world once the
    cleanup attempts of lines 132-141 are over, [flushed] tells whether
    state.json was rewritten. *)
Definition destroyed (id : string) (flushed : bool) (wp : World) : World :=
  mkWorld (delete id (STATE wp))
          (if flushed then delete id (STATE wp) else STATE_DB wp)
          (dirs wp)
          (EvWriteState :: trace wp).

(** The world once the clock has been read. *)
Definition clock_read (w : World) : World :=
  mkWorld (STATE w) (STATE_DB w) (dirs w) (EvTime :: trace w).

(** The "ttl_min" of line 151. *)
Definition minutes_left (now : Z) (v : EnvRec) : Z :=
  Z.max 0 ((expires_at v - now) `div` 60).

(** What a sweep is, in the words of the specification: the expired entries
    of the snapshot are destroyed one after the other; an entry whose
    destroy returns is reported, one whose destroy raises is passed over. *)
Inductive sweep (now : Z) : list (string * EnvRec) → World → list string → World → Prop :=
| sweep_done w :
    sweep now [] w [] w
| sweep_skip k v0 v rest w killed w' :
    STATE w !! k = Some v → now < expires_at v →
    sweep now rest w killed w' →
    sweep now ((k, v0) :: rest) w killed w'
| sweep_destroyed k v0 v rest w b w1 killed w' :
    STATE w !! k = Some v → expires_at v ≤ now →
    destroy ext (mkDestroyReq k) w = (inr b, w1) →
    sweep now rest w1 killed w' →
    sweep now ((k, v0) :: rest) w (k :: killed) w'
| sweep_failed k v0 v rest w e w1 killed w' :
    STATE w !! k = Some v → expires_at v ≤ now →
    destroy ext (mkDestroyReq k) w = (inl e, w1) →
    sweep now rest w1 killed w' →
    sweep now ((k, v0) :: rest) w killed w'.

(** The GitHub lookup of a branch, as gh_branch_exists logs it. *)
Definition ref_lookup (b : string) : Event :=
  EvGet ("https://api.github.com/repos/" +:+ Py.fmt (OWNER cfg) +:+ "/"
         +:+ Py.fmt (REPO cfg) +:+ "/git/refs/heads/" +:+ b).

(** The three settings that line 46 asks for are there. *)
Definition github_configured : Prop :=
  Py.truthy (GITHUB_TOKEN cfg) = true ∧ Py.truthy (OWNER cfg) = true
  ∧ Py.truthy (REPO cfg) = true.

(** The requests of the four endpoints. *)
Inductive Op : Type :=
| OpProvision (req : ProvisionReq)
| OpDestroy (req : DestroyReq)
| OpList
| OpGC.

(** The world after a request has been served, whatever it answered. *)
Definition step (op : Op) (w : World) : World :=
  match op with
  | OpProvision req => (provision cfg ext req w).2
  | OpDestroy req => (destroy ext req w).2
  | OpList => (list_envs ext w).2
  | OpGC => (garbage_collect ext w).2
  end.

(** The world after a sequence of requests, served one after the other. *)
Definition run_ops (ops : list Op) (w : World) : World :=
  foldl (λ w op, step op w) w ops.

(** The requests that can take a record away from under the id [k], served
    in world [w]: a gc, a destroy of [k], and a provision whose branch
    resolves and which draws [k] as its own id. *)
Definition displaces (k : string) (op : Op) (w : World) : Prop :=
  match op with
  | OpGC => True
  | OpDestroy req => env_id req = k
  | OpProvision req =>
      ∃ sha w1, gh_branch_exists cfg ext (branch req) w = (inr sha, w1)
                ∧ new_env_id req sha w1 = k
  | OpList => False
  end.

(** Every record sits in the directory named after its id, on port 8080. *)
Definition store_ok (w : World) : Prop :=
  ∀ k v, STATE w !! k = Some v →
         workdir v = path_join (BASE cfg) k ∧ port v = 8080.

(** The world with one more event in its trace. *)
Definition logged (ev : Event) (w : World) : World :=
  mkWorld (STATE w) (STATE_DB w) (dirs w) (ev :: trace w).

(** The world with its trace grown by [new], most recent event first. *)
Definition extended (new : list Event) (w : World) : World :=
  mkWorld (STATE w) (STATE_DB w) (dirs w) (new ++ trace w).

(** The look at the agent API of line 75. *)
Definition tunnels_api : Event := EvGet "http://127.0.0.1:4040/api/tunnels".

(** What lines 76-78 make of an answer of the agent API: the public_url of
    the first tunnel whose proto is "http", if there is one and it has a
    public_url. *)
Definition tunnel_url (answer : option (list Tunnel)) : option string :=
  match answer with
  | Some tunnels =>
      match filter (λ t, proto t = Some "http") tunnels with
      | t :: _ => public_url t
      | [] => None
      end
  | None => None
  end.

(** The trace of [n] looks that found nothing, each followed by its sleep. *)
Definition failed_polls (n : nat) : list Event :=
  concat (replicate n [EvSleep; tunnels_api]).

(** The trace once the tunnel process has been spawned (lines 64-71). *)
Definition ngrok_spawned (port : Z) (w : World) : list Event :=
  EvPopen ["ngrok"; "http"; pretty port; "--region"; NGROK_REGION cfg]
  :: EvRun ["ngrok"; "config"; "add-authtoken"; Py.fmt (NGROK_AUTHTOKEN cfg)] None
  :: trace w.

(** state.json holds the table. *)
Definition synced (w : World) : Prop := STATE_DB w = STATE w.

(** state.json can always be rewritten. *)
Definition writes_succeed : Prop := ∀ tr, ext_write ext tr = true.

(** Does the character occur in the string? *)
Fixpoint has_char (c : ascii) (s : string) : bool :=
  match s with
  | EmptyString => false
  | String a s' => Ascii.eqb a c || has_char c s'
  end.

(** The command by which destroy stops what runs in [workdir], and the
    directory it runs it in, after the probe for a compose file answered
    [compose] (lines 134-139). *)
Definition teardown_of (compose : bool) (id workdir : string) : Event :=
  if compose then
    EvRun ["docker"; "compose"; "-f"; "docker-compose.qa.yml"; "down"; "-v"]
          (Some workdir)
  else EvRun ["docker"; "rm"; "-f"; id] None.

End Spec.

(** ** Concrete configurations, oracles and stores, for the examples *)

Definition cfg0 : Config :=
  mkConfig "/data/qa-envs" (Some "tok") (Some "acme") (Some "shop") "qa_net" 120
           ["web"; "api"] (Some "ng") "us".

Definition is_uuid (ev : Event) : bool :=
  match ev with EvUuid4 => true | _ => false end.

(** Two different draws, then the second one for ever. *)
Definition uuids (tr : list Event) : string :=
  match length (List.filter is_uuid tr) with
  | 1%nat => "0123456789abcdef0123456789abcdef"
  | _ => "fedcba9876543210fedcba9876543210"
  end.

Definition tunnels_up : list Tunnel :=
  [mkTunnel (Some "https") (Some "https://x.ngrok.io");
   mkTunnel (Some "http") (Some "http://x.ngrok.io")].

(** Everything works; the clock ticks with every event. *)
Definition ext_ok : Ext :=
  mkExt (λ _, mkCompleted 0 "" "")
        (λ _, (200, "abc1234def5678abc1234def5678abc1234def56"))
        (λ _, Some tunnels_up)
        (λ _, false) (λ _, true)
        (λ tr, 1000 + Z.of_nat (length tr))
        uuids
        (λ _, true).

(** As [ext_ok], but the branch is unknown to GitHub. *)
Definition ext_no_branch : Ext :=
  mkExt (ext_run ext_ok) (λ _, (404, "")) (ext_tunnels ext_ok)
        (ext_exists ext_ok) (ext_rmtree ext_ok) (ext_time ext_ok)
        (ext_uuid4_hex ext_ok) (ext_write ext_ok).

(** As [ext_ok], but no tunnel ever shows up. *)
Definition ext_no_tunnel : Ext :=
  mkExt (ext_run ext_ok) (ext_ref ext_ok) (λ _, Some [])
        (ext_exists ext_ok) (ext_rmtree ext_ok) (ext_time ext_ok)
        (ext_uuid4_hex ext_ok) (ext_write ext_ok).

(** As [ext_ok], but the random suffix is always the same. *)
Definition ext_same_uuid : Ext :=
  mkExt (ext_run ext_ok) (ext_ref ext_ok) (ext_tunnels ext_ok)
        (ext_exists ext_ok) (ext_rmtree ext_ok) (ext_time ext_ok)
        (λ _, "0123456789abcdef0123456789abcdef") (ext_write ext_ok).


(** A fresh start: no record, no state.json, an empty base directory. *)
Definition w0 : World := mkWorld ∅ ∅ ∅ [].

Definition req_x (ttl : option Z) : ProvisionReq := mkProvisionReq "feature/x" "web" ttl.

(** As [ext_ok], on a repository that ships a docker-compose.qa.yml. *)
Definition ext_compose : Ext :=
  mkExt (ext_run ext_ok) (ext_ref ext_ok) (ext_tunnels ext_ok)
        (λ _, true) (ext_rmtree ext_ok) (ext_time ext_ok)
        (ext_uuid4_hex ext_ok) (ext_write ext_ok).

(** The same branch, provisioned twice. *)
Definition two_provisions : list Op :=
  [OpProvision (req_x None); OpProvision (req_x None)].

(** A store, as read back from state.json, that already holds the id the
    next call will draw. *)
Definition old_record : EnvRec :=
  mkEnvRec "feature/x" "abc1234def5678abc1234def5678abc1234def56"
           "http://old.ngrok.io" 8080 "/data/qa-envs/feature-x-abc1234-012345"
           10 7210.

Definition w_taken : World :=
  mkWorld {[ "feature-x-abc1234-012345" := old_record ]}
          {[ "feature-x-abc1234-012345" := old_record ]} ∅ [].

(** A store of four environments; at the first clock reading, 1001, three
    of them have expired and "d" has one second left. *)
Definition rec_at (id : string) (exp : Z) : EnvRec :=
  mkEnvRec "feature/x" "abc1234def5678abc1234def5678abc1234def56"
           "http://x.ngrok.io" 8080 ("/data/qa-envs/" +:+ id) 10 exp.

Definition four : gmap string EnvRec :=
  <["a" := rec_at "a" 500]> (<["b" := rec_at "b" 600]>
  (<["c" := rec_at "c" 700]> (<["d" := rec_at "d" 1002]> ∅))).

Definition w_four : World :=
  mkWorld four four
          (list_to_set ["/data/qa-envs/a"; "/data/qa-envs/b"; "/data/qa-envs/c";
                        "/data/qa-envs/d"]) [].

(** As [ext_ok], but state.json cannot be rewritten right after the tree of
    "b" was removed. *)
Definition ext_flaky : Ext :=
  mkExt (ext_run ext_ok) (ext_ref ext_ok) (ext_tunnels ext_ok)
        (ext_exists ext_ok) (ext_rmtree ext_ok) (ext_time ext_ok)
        (ext_uuid4_hex ext_ok)
        (λ tr, match tr with
               | EvWriteState :: EvRmtree p :: _ =>
                   negb (String.eqb p "/data/qa-envs/b")
               | _ => true
               end).

(** A store, as read back from state.json, whose one record expired long
    ago and sits under the id the next call will draw. *)
Definition stale_record : EnvRec :=
  mkEnvRec "feature/x" "abc1234def5678abc1234def5678abc1234def56"
           "http://old.ngrok.io" 8080 "/data/qa-envs/feature-x-abc1234-012345"
           10 500.

Definition w_stale : World :=
  mkWorld {[ "feature-x-abc1234-012345" := stale_record ]}
          {[ "feature-x-abc1234-012345" := stale_record ]} ∅ [].

(** A configuration without a GitHub token. *)
Definition cfg_no_github : Config :=
  mkConfig "/data/qa-envs" None (Some "acme") (Some "shop") "qa_net" 120
           ["web"; "api"] (Some "ng") "us".

(** As [ext_ok], but the agent only ever reports a tunnel of proto "https". *)
Definition ext_https_only : Ext :=
  mkExt (ext_run ext_ok) (ext_ref ext_ok)
        (λ _, Some [mkTunnel (Some "https") (Some "https://x.ngrok.io")])
        (ext_exists ext_ok) (ext_rmtree ext_ok) (ext_time ext_ok)
        (ext_uuid4_hex ext_ok) (ext_write ext_ok).


(** A provision, a list, a second provision, a sweep, a destroy. *)
Definition a_session : list Op :=
  [OpProvision (req_x (Some 10)); OpList; OpProvision (req_x None); OpGC;
   OpDestroy (mkDestroyReq "feature-x-abc1234-012345")].

(** * Reasoning about the service *)

(** ** The monad *)

Lemma bind_inv {A B} (m : M A) (k : A → M B) w r w' :
  (m ≫= k) w = (r, w') →
  (∃ e, m w = (inl e, w') ∧ r = inl e) ∨
  (∃ a w1, m w = (inr a, w1) ∧ k a w1 = (r, w')).
Proof.
  unfold mbind, M_bind. destruct (m w) as [[e|a] w1]; intros H.
  - left. exists e. by inversion H.
  - right. by exists a, w1.
Qed.

Lemma bind_ok {A B} (m : M A) (k : A → M B) w a w1 :
  m w = (inr a, w1) → (m ≫= k) w = k a w1.
Proof. intros H. unfold mbind, M_bind. by rewrite H. Qed.

Lemma bind_err {A B} (m : M A) (k : A → M B) w e w1 :
  m w = (inl e, w1) → (m ≫= k) w = (inl e, w1).
Proof. intros H. unfold mbind, M_bind. by rewrite H. Qed.

(** ** Rules for [sat] and for chains of calls *)

Section Rules.

Context (R : relation World) `{!PreOrder R}.

Lemma sat_ret {A} (a : A) E : sat (mret a) R E.
Proof. intros w r w' [= <- <-]. split; [reflexivity | done]. Qed.

Lemma sat_raise {A} e (E : Exc → Prop) : E e → sat (@raise A e) R E.
Proof. intros He w r w' [= <- <-]. split; [reflexivity | by intros ? [= <-]]. Qed.

Lemma sat_bind {A B} (m : M A) (k : A → M B) E :
  sat m R E → (∀ a, sat (k a) R E) → sat (m ≫= k) R E.
Proof.
  intros Hm Hk w r w' [(e & H & ->)|(a & w1 & H & H')]%bind_inv.
  - destruct (Hm _ _ _ H) as [? He]. split; [done | intros ? [= <-]; eauto].
  - destruct (Hm _ _ _ H) as [? _], (Hk _ _ _ _ H') as [? ?].
    split; [by etrans | done].
Qed.

Lemma sat_try {A} (m : M A) (h : Exc → M A) E0 E :
  sat m R E0 → (∀ e, sat (h e) R E) → sat (try_except m h) R E.
Proof.
  intros Hm Hh w r w'. unfold try_except.
  destruct (m w) as [[e|a] w1] eqn:H; intros H'.
  - destruct (Hm _ _ _ H) as [? _], (Hh _ _ _ _ H') as [? ?].
    split; [by etrans | done].
  - inversion H'; subst. destruct (Hm _ _ _ H) as [? _]. by split.
Qed.

Lemma sat_ask {A} (f : list Event → A) E : sat (ask f) R E.
Proof. intros w r w' [= <- <-]. split; [reflexivity | done]. Qed.

Lemma sat_get_STATE E : sat get_STATE R E.
Proof. intros w r w' [= <- <-]. split; [reflexivity | done]. Qed.

Lemma bind_assoc_pw {A B C} (m : M A) (f : A → M B) (k : B → M C) w :
  ((m ≫= f) ≫= k) w = (m ≫= λ x, f x ≫= k) w.
Proof. unfold mbind, M_bind. by destruct (m w) as [[?|?] ?]. Qed.

(** One step of a chain of calls whose footprint since [w0] has been [R]:
    the step either fails, which [P] must allow, or hands over to the rest
    of the chain. *)
Lemma chain_bind {A B} (m : M A) (k : A → M B) E w0
    (P : Exc + B → World → Prop) :
  sat m R E →
  (∀ e w', R w0 w' → E e → P (inl e) w') →
  (∀ a wc, R w0 wc → ∀ r w', k a wc = (r, w') → P r w') →
  ∀ wc, R w0 wc → ∀ r w', (m ≫= k) wc = (r, w') → P r w'.
Proof.
  intros Hm Hfail Hk wc Hq r w' [(e & H & ->)|(a & w1 & H & H')]%bind_inv.
  - destruct (Hm _ _ _ H) as [? He]. apply Hfail; [by etrans | eauto].
  - destruct (Hm _ _ _ H) as [? _]. eapply Hk; [|done]. by etrans.
Qed.

Lemma chain_assoc {A B C} (m : M A) (f : A → M B) (k : B → M C) w0
    (P : Exc + C → World → Prop) :
  (∀ wc, R w0 wc → ∀ r w', (m ≫= λ x, f x ≫= k) wc = (r, w') → P r w') →
  ∀ wc, R w0 wc → ∀ r w', ((m ≫= f) ≫= k) wc = (r, w') → P r w'.
Proof. intros H wc Hq r w'. rewrite bind_assoc_pw. by apply H. Qed.

Lemma chain_ret {A B} (a : A) (k : A → M B) w0 (P : Exc + B → World → Prop) :
  (∀ wc, R w0 wc → ∀ r w', k a wc = (r, w') → P r w') →
  ∀ wc, R w0 wc → ∀ r w', (mret a ≫= k) wc = (r, w') → P r w'.
Proof. intros H wc Hq r w'. by apply H. Qed.

End Rules.

Lemma sat_weaken {A} (m : M A) (R R' : relation World) (E E' : Exc → Prop) :
  sat m R E → (∀ w w', R w w' → R' w w') → (∀ e, E e → E' e) → sat m R' E'.
Proof. intros H HR HE w r w' Hm. destruct (H _ _ _ Hm). split; eauto. Qed.

Lemma http_mono cs cs' e : cs ⊆ cs' → http cs e → http cs' e.
Proof. intros Hs (c & d & -> & Hc). exists c, d. split; [done | by apply Hs]. Qed.

Lemma http_sub cs cs' : sublist cs cs' → ∀ e, http cs e → http cs' e.
Proof. intros Hs e. apply http_mono. by apply sublist_subseteq. Qed.

(** ** The footprints *)

Global Instance same_store_po : PreOrder same_store.
Proof.
  split.
  - by intros w.
  - intros w1 w2 w3 [? ?] [? ?]. split; congruence.
Qed.

Global Instance quiet_po : PreOrder quiet.
Proof.
  split.
  - intros w. repeat split. by exists [].
  - intros w1 w2 w3 (? & ? & ? & n1 & ? & ?) (? & ? & ? & n2 & ? & ?).
    repeat split; try congruence.
    exists (n2 ++ n1). split; [|by apply Forall_app].
    rewrite <- app_assoc. congruence.
Qed.

Lemma sat_emit_quiet ev E : is_teardown ev = false → sat (emit ev) quiet E.
Proof.
  intros Hev w r w' [= <- <-]. split; [|done].
  repeat split. exists [ev]. split; [done | by constructor].
Qed.

Lemma http_intro c d cs : c ∈ cs → http cs (HTTPException c d).
Proof. intros. by exists c, d. Qed.

Ltac sat_go :=
  repeat first
    [ apply sat_ret; tc_solve
    | apply sat_ask; tc_solve
    | apply sat_get_STATE; tc_solve
    | apply sat_emit_quiet; reflexivity
    | apply sat_raise; [tc_solve | apply http_intro; set_solver]
    | apply sat_bind; [tc_solve | | intros ?]
    | match goal with
      | |- sat (if ?b then _ else _) _ _ => destruct b
      | |- sat (match ?x with _ => _ end) _ _ => destruct x
      end ].

(** ** What the helpers do to the world *)

Section Facts.

Context (cfg : Config) (ext : Ext).

Lemma run_quiet cmd cwd :
  teardown_cmd cmd = false → sat (run ext cmd cwd) quiet (http [500]).
Proof.
  intros Hc. unfold run. apply sat_bind; [tc_solve | | intros ?].
  - by apply sat_emit_quiet.
  - sat_go.
Qed.

Lemma gh_branch_exists_quiet b :
  sat (gh_branch_exists cfg ext b) quiet (http [400; 404]).
Proof. unfold gh_branch_exists. sat_go. Qed.

Lemma ensure_network_quiet : sat (ensure_network cfg ext) quiet (http [500]).
Proof.
  unfold ensure_network. eapply sat_try; [tc_solve | | intros ?].
  - apply sat_bind; [tc_solve | by apply run_quiet | intros; sat_go].
  - apply sat_bind; [tc_solve | by apply run_quiet | intros; sat_go].
Qed.

Lemma poll_tunnel_quiet : sat (poll_tunnel ext) quiet never.
Proof.
  unfold poll_tunnel. eapply (sat_try _ _ _ (λ _, True)); [| intros ?; sat_go].
  apply sat_bind; [tc_solve | by apply sat_emit_quiet | intros ?].
  apply sat_bind; [tc_solve | apply sat_ask; tc_solve | intros j].
  destruct j as [tunnels|]; [| by apply sat_raise; [tc_solve|]].
  destruct (filter _ tunnels) as [|t ?]; [sat_go |].
  destruct (public_url t); [sat_go | by apply sat_raise; [tc_solve|]].
Qed.

Lemma wait_tunnel_quiet n : sat (wait_tunnel ext n) quiet never.
Proof.
  induction n as [|n IH]; simpl; [sat_go |].
  apply sat_bind; [tc_solve | apply poll_tunnel_quiet | intros [u|]]; [sat_go |].
  apply sat_bind; [tc_solve | by apply sat_emit_quiet | intros _; apply IH].
Qed.

Lemma start_ngrok_quiet p : sat (start_ngrok cfg ext p) quiet (http [400; 500]).
Proof.
  unfold start_ngrok. destruct (negb _); [sat_go |].
  apply sat_bind; [tc_solve | | intros _].
  { eapply sat_try; [tc_solve | | intros ?; sat_go].
    apply sat_bind; [tc_solve | by apply run_quiet | intros; sat_go]. }
  apply sat_bind; [tc_solve | by apply sat_emit_quiet | intros _].
  apply sat_bind; [tc_solve | | intros [u|]; sat_go].
  eapply sat_weaken; [apply wait_tunnel_quiet | done | by intros ? []].
Qed.

Lemma path_exists_quiet p E : sat (path_exists ext p) quiet E.
Proof. unfold path_exists. sat_go. Qed.

End Facts.

(** ** The outcomes of provision *)

Section Provision.

Context (cfg : Config) (ext : Ext).

Ltac chain lem :=
  eapply (chain_bind quiet _ _ (http [400; 500]));
  [ eapply sat_weaken; [lem | done | apply http_sub; repeat constructor]
  | match goal with Hf : ∀ e w', quiet _ w' → _ |- _ => exact Hf end
  | intros ? ].

Lemma provision_cases req w r w' :
  provision cfg ext req w = (r, w') → provision_outcome cfg ext req w r w'.
Proof.
  unfold provision. destruct (bool_decide _) eqn:Hsvc; simpl.
  2:{ intros [= <- <-]. apply BadService. by apply bool_decide_eq_false in Hsvc. }
  apply bool_decide_eq_true in Hsvc.
  intros [(e & Hgh & ->)|(sha & w1 & Hgh & H)]%bind_inv.
  { by apply BadBranch. }
  apply bind_inv in H as [(? & [=] & _)|(? & ? & [= <- <-] & H)].
  apply bind_inv in H as [(? & [=] & _)|(? & ? & [= <- <-] & H)].
  change (mkWorld _ _ _ _) with (after_mkdir (new_workdir cfg ext req sha w1) w1) in H.
  change (make_env_id _ _ _) with (new_env_id ext req sha w1) in H.
  change (path_join (BASE cfg) _) with (new_workdir cfg ext req sha w1) in H.
  set (w3 := after_mkdir _ w1) in *.
  assert (Hfail : ∀ e w', quiet w3 w' → http [400; 500] e →
                          provision_outcome cfg ext req w (inl e) w')
    by (intros; by eapply DeployFailed).
  assert (Hq : quiet w3 w3) by reflexivity.
  revert r w' H. generalize dependent Hq. generalize w3 at 2 3 as wc.
  chain ltac:(apply run_quiet; reflexivity).
  chain ltac:(apply run_quiet; reflexivity).
  chain ltac:(apply ensure_network_quiet).
  eapply (chain_bind quiet _ _ (http [400; 500]));
    [apply path_exists_quiet | exact Hfail | intros compose].
  assert (Hrest : ∀ wc, quiet w3 wc → ∀ r w',
    (start_ngrok cfg ext 8080 ≫= λ url, time ext ≫= λ now, time ext ≫= λ created,
       set_STATE <[new_env_id ext req sha w1 :=
          mkEnvRec (branch req) sha url 8080 (new_workdir cfg ext req sha w1) created
                   (now + ttl_or_default cfg (ttl_minutes req) * 60)]> ≫= λ _,
       save_state ext ≫= λ _,
       mret (mkProvisionResp (new_env_id ext req sha w1) url
               (now + ttl_or_default cfg (ttl_minutes req) * 60) sha)) wc = (r, w') →
    provision_outcome cfg ext req w r w').
  { chain ltac:(apply start_ngrok_quiet).
    match goal with u : string |- ∀ wc, _ => rename u into url end.
    intros wc Hq r w'.
    pose proof (Committed cfg ext req w sha w1 url wc Hsvc Hgh Hq) as HC. simpl in HC.
    cbv [mbind M_bind time save_state emit ask set_STATE flush_STATE
      raise mret M_ret STATE STATE_DB dirs trace].
    destruct (ext_write ext _); intros [= <- <-]; exact HC. }
  destruct compose.
  - apply (chain_assoc quiet). chain ltac:(apply run_quiet; reflexivity).
    apply (chain_ret quiet). exact Hrest.
  - apply (chain_assoc quiet). chain ltac:(apply run_quiet; reflexivity).
    apply (chain_assoc quiet). chain ltac:(apply run_quiet; reflexivity).
    apply (chain_ret quiet). exact Hrest.
Qed.

End Provision.

Global Instance shrink_po : PreOrder shrink.
Proof.
  split.
  - intros w. split; [done|]. split; [done|]. by exists [].
  - intros w1 w2 w3 (? & ? & n1 & Hn1) (? & ? & n2 & Hn2).
    split; [by etrans|]. split; [by etrans|].
    exists (n2 ++ n1). rewrite <- app_assoc. congruence.
Qed.

Lemma sat_emit_shrink ev E : sat (emit ev) shrink E.
Proof.
  intros w r w' [= <- <-]. split; [|done].
  split; [done|]. split; [done|]. by exists [ev].
Qed.

Lemma sat_rm_dir_shrink p E : sat (set_dirs (λ d, d ∖ {[p]})) shrink E.
Proof.
  intros w r w' [= <- <-]. split; [|done].
  split; [done|]. split; [by apply subseteq_difference_l | by exists []].
Qed.

(** ** destroy *)

Section Destroy.

Context (cfg : Config) (ext : Ext).

Lemma run_shrink cmd cwd : sat (run ext cmd cwd) shrink (http [500]).
Proof.
  unfold run. apply sat_bind; [tc_solve | apply sat_emit_shrink | intros ?].
  sat_go.
Qed.

(** [try: run(cmd) except: pass] *)
Lemma try_run_shrink cmd cwd :
  sat (try_except (run ext cmd cwd;; mret tt) (λ _, mret tt)) shrink never.
Proof.
  eapply sat_try; [tc_solve | | intros ?; sat_go].
  apply sat_bind; [tc_solve | apply run_shrink | intros; sat_go].
Qed.

Lemma try_rmtree_shrink p :
  sat (try_except (rmtree ext p) (λ _, mret tt)) shrink never.
Proof.
  eapply (sat_try _ _ _ never); [| intros ?; sat_go].
  unfold rmtree. apply sat_bind; [tc_solve | apply sat_emit_shrink | intros ?].
  apply sat_bind; [tc_solve | sat_go | intros [|]]; [apply sat_rm_dir_shrink | sat_go].
Qed.

Lemma path_exists_shrink p E : sat (path_exists ext p) shrink E.
Proof.
  unfold path_exists. apply sat_bind; [tc_solve | apply sat_emit_shrink | intros ?].
  sat_go.
Qed.

Lemma destroy_absent req w :
  STATE w !! env_id req = None → destroy ext req w = (inl not_found, w).
Proof.
  intros H. unfold destroy. cbv [mbind M_bind get_STATE]. by rewrite H.
Qed.

Lemma destroy_present req w v :
  STATE w !! env_id req = Some v →
  ∃ wp, shrink w wp ∧
        let flushed := ext_write ext (EvWriteState :: trace wp) in
        destroy ext req w =
          (if flushed then inr true else inl OSError,
           destroyed (env_id req) flushed wp).
Proof.
  intros H.
  destruct (destroy ext req w) as [r w'] eqn:Hd. revert Hd.
  unfold destroy. rewrite (bind_ok get_STATE _ w (STATE w) w eq_refl), H.
  assert (Hq : shrink w w) by reflexivity.
  revert r w'. generalize dependent Hq. generalize w at 2 3 as wc.
  eapply (chain_bind shrink _ _ never);
    [apply path_exists_shrink | by intros ? ? ? [] | intros compose].
  eapply (chain_bind shrink _ _ never);
    [destruct compose; apply try_run_shrink | by intros ? ? ? [] | intros _].
  eapply (chain_bind shrink _ _ never);
    [apply try_rmtree_shrink | by intros ? ? ? [] | intros _].
  intros wc Hq r w'.
  cbv [mbind M_bind save_state emit ask set_STATE flush_STATE raise mret M_ret
       STATE STATE_DB dirs trace].
  destruct (ext_write ext _) eqn:Hw; intros [= <- <-]; exists wc;
    (split; [done|]); simpl; by rewrite Hw.
Qed.

End Destroy.

(** ** list and gc *)

Section Sweep.

Context (cfg : Config) (ext : Ext).

Lemma list_envs_eq w :
  list_envs ext w =
    (inr ((λ kv, mkEnvItem kv.1 kv.2 (minutes_left (ext_time ext (EvTime :: trace w)) kv.2))
            <$> map_to_list (STATE w)),
     clock_read w).
Proof. reflexivity. Qed.

Lemma getitem_present k v w : STATE w !! k = Some v → getitem k w = (inr v, w).
Proof. intros H. unfold getitem. cbv [mbind M_bind get_STATE]. by rewrite H. Qed.

Lemma gc_loop_spec now items :
  NoDup items.*1 →
  ∀ w acc,
    (∀ k v, (k, v) ∈ items → STATE w !! k = Some v) →
    ∃ killed w',
      gc_loop ext now items acc w = (inr (acc ++ killed), w') ∧
      sweep ext now items w killed w' ∧
      (∀ k, k ∈ killed → ∃ v, (k, v) ∈ items ∧ expires_at v ≤ now) ∧
      (∀ k, k ∉ items.*1 → STATE w' !! k = STATE w !! k) ∧
      (∀ k v, (k, v) ∈ items → now < expires_at v → STATE w' !! k = Some v).
Proof.
  induction items as [|[k v] rest IH]; intros Hnd w acc Hin.
  { exists [], w. rewrite app_nil_r. repeat split; try done.
    - constructor.
    - by intros ? ?%elem_of_nil.
    - by intros ? ? ?%elem_of_nil. }
  apply NoDup_cons in Hnd as [Hk Hnd]. simpl in Hk.
  assert (Hv : STATE w !! k = Some v) by (apply Hin; left).
  simpl. rewrite (bind_ok _ _ _ _ _ (getitem_present _ _ _ Hv)).
  destruct (Z.leb_spec (expires_at v) now) as [Hexp|Hexp].
  - destruct (destroy_present ext (mkDestroyReq k) w v Hv) as (wp & Hs & Hd).
    simpl in Hd. destruct Hs as ([Hst _] & _).
    set (w1 := destroyed k _ wp) in Hd.
    assert (Hst1 : STATE w1 = delete k (STATE w)) by (simpl; by rewrite Hst).
    assert (Hin1 : ∀ k' v', (k', v') ∈ rest → STATE w1 !! k' = Some v').
    { intros k' v' Hr. rewrite Hst1, lookup_delete_ne.
      - apply Hin. by right.
      - intros ->. apply Hk. apply list_elem_of_fmap. by exists (k', v'). }
    destruct (ext_write ext _) eqn:Hw.
    + destruct (IH Hnd w1 (acc ++ [k]) Hin1) as (killed & w' & Hg & Hsw & Hkd & Hout & Hkeep).
      exists (k :: killed), w'. split; [|split; [|split; [|split]]].
      * unfold try_except at 1. cbv [mbind M_bind] in *. rewrite Hd. simpl.
        rewrite Hg. by rewrite <- app_assoc.
      * eapply sweep_destroyed; eauto.
      * intros k' [->|Hk']%elem_of_cons.
        -- exists v. split; [left | done].
        -- destruct (Hkd _ Hk') as (v' & ? & ?). exists v'. split; [by right | done].
      * intros k' Hk'. rewrite Hout, Hst1.
        -- apply lookup_delete_ne. intros ->. apply Hk'. left.
        -- intros ?. apply Hk'. by right.
      * intros k' v' [[= -> ->]|Hr]%elem_of_cons ?; [lia|]. by apply Hkeep.
    + destruct (IH Hnd w1 acc Hin1) as (killed & w' & Hg & Hsw & Hkd & Hout & Hkeep).
      exists killed, w'. split; [|split; [|split; [|split]]].
      * unfold try_except at 1. cbv [mbind M_bind] in *. rewrite Hd. simpl.
        by rewrite Hg.
      * eapply sweep_failed; eauto.
      * intros k' Hk'. destruct (Hkd _ Hk') as (v' & ? & ?).
        exists v'. split; [by right | done].
      * intros k' Hk'. rewrite Hout, Hst1.
        -- apply lookup_delete_ne. intros ->. apply Hk'. left.
        -- intros ?. apply Hk'. by right.
      * intros k' v' [[= -> ->]|Hr]%elem_of_cons ?; [lia|]. by apply Hkeep.
  - assert (Hin1 : ∀ k' v', (k', v') ∈ rest → STATE w !! k' = Some v')
      by (intros; apply Hin; by right).
    destruct (IH Hnd w acc Hin1) as (killed & w' & Hg & Hsw & Hkd & Hout & Hkeep).
    exists killed, w'. split; [|split; [|split; [|split]]].
    + done.
    + eapply sweep_skip; eauto.
    + intros k' Hk'. destruct (Hkd _ Hk') as (v' & ? & ?).
      exists v'. split; [by right | done].
    + intros k' Hk'. apply Hout. intros ?. apply Hk'. by right.
    + intros k' v' [[= -> ->]|Hr]%elem_of_cons ?; [|by apply Hkeep].
      rewrite Hout; [done | exact Hk].
Qed.

End Sweep.

(** * The claims *)

(** ** Calls that are turned away: C10 and C5 *)

Section Claims.

Context (cfg : Config) (ext : Ext).

(** C10: a provision whose service is not in the allow-list fails with
    InvalidInput (status 400) and leaves the world exactly as it was: the
    trace is unchanged, so no branch lookup was made, no directory created
    and no process launched, and the store is unchanged. *)
Theorem provision_rejects_unknown_service (req : ProvisionReq) (w : World) :
  service req ∉ ALLOWED cfg →
  ∃ e, provision cfg ext req w = (inl e, w) ∧ InvalidInput e.
Proof.
  intros Hs. unfold provision.
  rewrite (bool_decide_eq_false_2 _ Hs). simpl.
  eexists. split; [reflexivity | by eexists].
Qed.

(** C5 (amended): a provision with an allow-listed service, on a configured
    GitHub repository, whose branch lookup does not answer 200, fails with
    NotFound (status 404); the store and its file are unchanged and no
    directory was created: the only effect is the lookup itself. *)
Theorem provision_unknown_branch (req : ProvisionReq) (w : World) :
  service req ∈ ALLOWED cfg →
  github_configured cfg →
  (ext_ref ext (ref_lookup cfg (branch req) :: trace w)).1 ≠ 200 →
  ∃ e, provision cfg ext req w
       = (inl e, mkWorld (STATE w) (STATE_DB w) (dirs w)
                         (ref_lookup cfg (branch req) :: trace w))
       ∧ NotFound e.
Proof.
  intros Hs (Ht & Ho & Hr) Href. unfold provision.
  rewrite (bool_decide_eq_true_2 _ Hs). simpl.
  eexists. split; [|by eexists].
  apply bind_err. unfold gh_branch_exists. rewrite Ht, Ho, Hr. simpl.
  cbv [mbind M_bind emit ask]. simpl.
  apply Z.eqb_neq in Href. unfold ref_lookup in Href. by rewrite Href.
Qed.

End Claims.

(** C10, at a concrete call: service "db" against the allow-list web, api. *)
Lemma provision_rejects_unknown_service_witness :
  ∃ e, provision cfg0 ext_ok (mkProvisionReq "feature/x" "db" None) w0 = (inl e, w0)
       ∧ InvalidInput e.
Proof.
  apply (provision_rejects_unknown_service cfg0 ext_ok). vm_compute.
  intros H. repeat (apply elem_of_cons in H as [H|H]; [discriminate|]).
  by apply elem_of_nil in H.
Defined.

(** C5 as stated fails: a call whose branch GitHub does not know, made with a
    service outside the allow-list, fails with status 400, which is not
    NotFound. *)
Lemma provision_unknown_branch_counterexample :
  (∀ tr, (ext_ref ext_no_branch tr).1 = 404) ∧
  provision cfg0 ext_no_branch (mkProvisionReq "no/such" "db" None) w0
    = (inl (HTTPException 400 "service inválido. Aceitos: web, api"), w0) ∧
  ¬ NotFound (HTTPException 400 "service inválido. Aceitos: web, api").
Proof.
  split; [done|]. split; [by vm_compute|]. by intros [d [=]].
Qed.

(** C5 (amended), at a concrete call. *)
Lemma provision_unknown_branch_witness :
  ∃ e, provision cfg0 ext_no_branch (mkProvisionReq "no/such" "web" None) w0
       = (inl e, mkWorld ∅ ∅ ∅ [ref_lookup cfg0 "no/such"])
       ∧ NotFound e.
Proof.
  apply (provision_unknown_branch cfg0 ext_no_branch
           (mkProvisionReq "no/such" "web" None) w0).
  - vm_compute. left.
  - by vm_compute.
  - by vm_compute.
Defined.

(** ** Deployments that fail: C1 *)

Section Claims_provision.

Context (cfg : Config) (ext : Ext).

(** A provision that returns went all the way to the commit, and the write
    of state.json succeeded. *)
Lemma provision_ok_inv req w resp w' :
  provision cfg ext req w = (inr resp, w') →
  ∃ sha w1 url wp,
    gh_branch_exists cfg ext (branch req) w = (inr sha, w1) ∧
    quiet (after_mkdir (new_workdir cfg ext req sha w1) w1) wp ∧
    let id := new_env_id ext req sha w1 in
    let rec := new_record cfg ext req sha url (new_workdir cfg ext req sha w1) wp in
    resp = mkProvisionResp id url (expires_at rec) sha ∧
    w' = committed id rec true wp.
Proof.
  intros H. apply provision_cases in H.
  inversion H as [| | | sha w1 url wp Hs Hgh Hq id rec flushed Hr Hw].
  subst id rec flushed. destruct (ext_write ext _); simpl in Hr.
  2: discriminate Hr.
  injection Hr as <-. subst w'. exists sha, w1, url, wp.
  split; [done|]. split; [done|]. by split.
Qed.


End Claims_provision.



(** ** Sequences of requests: C2 *)

Section Requests.

Context (cfg : Config) (ext : Ext).

Lemma path_join_inj d a b : path_join d a = path_join d b → a = b.
Proof.
  unfold path_join. induction d as [|c d IH]; cbn.
  - intros H. by injection H.
  - intros H. injection H as H. by apply IH.
Qed.

(** provision leaves the table alone or adds the record of this call. *)
Lemma provision_STATE req w :
  STATE (provision cfg ext req w).2 = STATE w ∨
  ∃ sha w1 url wp,
    STATE (provision cfg ext req w).2
    = <[new_env_id ext req sha w1 :=
          new_record cfg ext req sha url (new_workdir cfg ext req sha w1) wp]> (STATE w).
Proof.
  destruct (provision cfg ext req w) as [r w'] eqn:H. simpl.
  apply provision_cases in H.
  inversion H as [| e ? ? Hgh | sha w1 e ? ? Hgh ? Hq
                  | sha w1 url wp ? Hgh Hq id rec flushed]; subst.
  - by left.
  - left. by destruct (gh_branch_exists_quiet _ _ _ _ _ _ Hgh) as [(? & _) _].
  - left. destruct (gh_branch_exists_quiet _ _ _ _ _ _ Hgh) as [(? & _) _].
    destruct Hq as (? & _). simpl in *. by etrans.
  - right. exists sha, w1, url, wp.
    destruct (gh_branch_exists_quiet _ _ _ _ _ _ Hgh) as [(Ha & _) _].
    destruct Hq as (Hb & _). simpl in *. by rewrite Hb, Ha.
Qed.

Lemma destroy_STATE req w :
  STATE (destroy ext req w).2 = STATE w ∨
  STATE (destroy ext req w).2 = delete (env_id req) (STATE w).
Proof.
  destruct (STATE w !! env_id req) as [v|] eqn:Hv.
  - destruct (destroy_present ext req w v Hv) as (wp & ([Hst _] & _) & ->).
    right. simpl. by rewrite Hst.
  - left. by rewrite destroy_absent.
Qed.

Lemma try_destroy_world {A} req (x y : A) w :
  (try_except (destroy ext req;; mret x) (λ _, mret y) w).2 = (destroy ext req w).2.
Proof.
  unfold try_except. cbv [mbind M_bind].
  by destruct (destroy ext req w) as [[?|?] ?].
Qed.

Lemma try_destroy_returns {A} req (x y : A) w :
  ∃ a, (try_except (destroy ext req;; mret x) (λ _, mret y) w).1 = inr a.
Proof.
  unfold try_except. cbv [mbind M_bind].
  destruct (destroy ext req w) as [[?|?] ?]; by eexists.
Qed.

(** A sweep only ever takes records away. *)
Lemma gc_loop_sub now items : ∀ acc w,
  STATE (gc_loop ext now items acc w).2 ⊆ STATE w.
Proof.
  induction items as [|[k v0] rest IH]; intros acc w; [done|].
  simpl. destruct (STATE w !! k) as [v|] eqn:Hk.
  2:{ rewrite (bind_err _ _ _ (KeyError k) w); [done|].
      unfold getitem. cbv [mbind M_bind get_STATE]. by rewrite Hk. }
  rewrite (bind_ok _ _ _ _ _ (getitem_present _ _ _ Hk)).
  destruct (expires_at v <=? now); [|apply IH].
  pose proof (try_destroy_world (mkDestroyReq k) (acc ++ [k]) acc w) as Hw.
  destruct (try_destroy_returns (mkDestroyReq k) (acc ++ [k]) acc w) as [a Ha].
  destruct (try_except _ _ w) as [r w1] eqn:Ht. simpl in Hw, Ha. subst r w1.
  rewrite (bind_ok _ _ _ _ _ Ht).
  etrans; [apply IH|].
  destruct (destroy_STATE (mkDestroyReq k) w) as [-> | ->]; [done|].
  apply delete_subseteq.
Qed.

Lemma step_store_ok op w : store_ok cfg w → store_ok cfg (step cfg ext op w).
Proof.
  intros Hok. destruct op as [req|req| |]; unfold store_ok; simpl.
  - destruct (provision_STATE req w) as [-> | (sha & w1 & url & wp & ->)]; [done|].
    intros k v. destruct (decide (k = new_env_id ext req sha w1)) as [->|Hne].
    + rewrite lookup_insert_eq. by intros [= <-].
    + rewrite lookup_insert_ne by done. apply Hok.
  - destruct (destroy_STATE req w) as [-> | ->]; [done|].
    intros k v Hk. apply lookup_delete_Some in Hk as [_ Hk]. by apply Hok.
  - done.
  - intros k v Hk. apply (Hok k v).
    unfold garbage_collect, time in Hk. cbv [mbind M_bind emit ask get_STATE] in Hk.
    simpl in Hk.
    by apply (lookup_weaken _ _ _ _ Hk (gc_loop_sub _ _ _ _)).
Qed.

Lemma run_ops_store_ok ops : ∀ w, store_ok cfg w → store_ok cfg (run_ops cfg ext ops w).
Proof.
  induction ops as [|op ops IH]; intros w Hok; [done|].
  simpl. apply IH. by apply step_store_ok.
Qed.

(** C2 (amended): in every store reached by serving requests, two records
    under distinct ids have distinct workdirs; their ports are not distinct:
    every record carries port 8080. *)
Theorem running_records_have_distinct_workdirs
    (ops : list Op) (w : World) (k1 k2 : string) (v1 v2 : EnvRec) :
  store_ok cfg w →
  STATE (run_ops cfg ext ops w) !! k1 = Some v1 →
  STATE (run_ops cfg ext ops w) !! k2 = Some v2 →
  k1 ≠ k2 →
  workdir v1 ≠ workdir v2 ∧ port v1 = 8080 ∧ port v2 = 8080.
Proof.
  intros Hok H1 H2 Hne.
  destruct (run_ops_store_ok ops w Hok _ _ H1) as [Hw1 Hp1].
  destruct (run_ops_store_ok ops w Hok _ _ H2) as [Hw2 Hp2].
  repeat split; try done.
  rewrite Hw1, Hw2. intros ?%path_join_inj. done.
Qed.

End Requests.

(** C2 as stated fails: after two provisions the store holds two records
    under distinct ids, and both carry port 8080. *)
Lemma shared_port_counterexample :
  let w := run_ops cfg0 ext_compose two_provisions w0 in
  ∃ v1 v2,
    STATE w !! "feature-x-abc1234-012345" = Some v1 ∧
    STATE w !! "feature-x-abc1234-fedcba" = Some v2 ∧
    "feature-x-abc1234-012345" ≠ "feature-x-abc1234-fedcba" ∧
    port v1 = port v2.
Proof.
  eexists _, _. split; [by vm_compute|]. split; [by vm_compute|]. by split.
Qed.

(** C2 (amended), on the same two provisions. *)
Lemma running_records_have_distinct_workdirs_witness :
  workdir (mkEnvRec "feature/x" "abc1234def5678abc1234def5678abc1234def56"
             "http://x.ngrok.io" 8080 "/data/qa-envs/feature-x-abc1234-012345"
             1013 8212)
  ≠ workdir (mkEnvRec "feature/x" "abc1234def5678abc1234def5678abc1234def56"
               "http://x.ngrok.io" 8080 "/data/qa-envs/feature-x-abc1234-fedcba"
               1027 8226)
  ∧ 8080 = 8080 ∧ 8080 = 8080.
Proof.
  apply (running_records_have_distinct_workdirs cfg0 ext_compose two_provisions w0
           "feature-x-abc1234-012345" "feature-x-abc1234-fedcba").
  - intros k v H. unfold w0 in H. simpl in H. by rewrite lookup_empty in H.
  - by vm_compute.
  - by vm_compute.
  - done.
Defined.

(** ** The commit: C6 and C7 *)

Section Claims_commit.

Context (cfg : Config) (ext : Ext).

(** C6 (amended): the record committed by a successful provision expires
    [ttl] minutes after the clock reading taken just before the commit,
    where [ttl] is the caller's ttl_minutes when that is positive, and the
    configured default when it is absent or zero. *)
Theorem provision_ttl_choice (req : ProvisionReq) (w w' : World) (resp : ProvisionResp) :
  provision cfg ext req w = (inr resp, w') →
  ∃ rec tr,
    STATE w' !! resp_env_id resp = Some rec ∧
    expires_at rec = resp_expires_at resp ∧
    trace w' = EvWriteState :: EvTime :: EvTime :: tr ∧
    expires_at rec
    = ext_time ext (EvTime :: tr) + ttl_or_default cfg (ttl_minutes req) * 60 ∧
    (∀ n, ttl_minutes req = Some n → 0 < n →
          ttl_or_default cfg (ttl_minutes req) = n) ∧
    (ttl_minutes req = None ∨ ttl_minutes req = Some 0 →
     ttl_or_default cfg (ttl_minutes req) = DEFAULT_TTL cfg).
Proof.
  intros (sha & w1 & url & wp & _ & _ & -> & ->)%provision_ok_inv.
  eexists _, (trace wp). simpl. split; [apply lookup_insert_eq|].
  repeat split.
  - intros n -> Hn. simpl. destruct (Z.eqb_spec n 0); [lia | done].
  - by intros [-> | ->].
Qed.


End Claims_commit.

(** C6 as stated fails: a negative ttl_minutes is not replaced by the default
    of 120 minutes; it is used as it is, and the environment is committed
    with an expiry 300 seconds before the clock reading 1013. *)
Lemma provision_negative_ttl_counterexample :
  (provision cfg0 ext_ok (req_x (Some (-5))) w0).1
  = inr (mkProvisionResp "feature-x-abc1234-012345" "http://x.ngrok.io"
           (1013 + (-5) * 60) "abc1234def5678abc1234def5678abc1234def56")
  ∧ 1013 + (-5) * 60 ≠ 1013 + DEFAULT_TTL cfg0 * 60.
Proof. split; by vm_compute. Qed.

(** C6 (amended), at a concrete call asking for 10 minutes. *)
Lemma provision_ttl_choice_witness :
  let out := provision cfg0 ext_ok (req_x (Some 10)) w0 in
  ∃ rec tr,
    STATE out.2 !! "feature-x-abc1234-012345" = Some rec ∧
    expires_at rec = 1613 ∧
    trace out.2 = EvWriteState :: EvTime :: EvTime :: tr ∧
    expires_at rec
    = ext_time ext_ok (EvTime :: tr) + ttl_or_default cfg0 (Some 10) * 60 ∧
    (∀ n, Some 10 = Some n → 0 < n → ttl_or_default cfg0 (Some 10) = n) ∧
    (Some 10 = None ∨ Some 10 = Some 0 →
     ttl_or_default cfg0 (Some 10) = DEFAULT_TTL cfg0).
Proof.
  apply (provision_ttl_choice cfg0 ext_ok (req_x (Some 10)) w0
           (provision cfg0 ext_ok (req_x (Some 10)) w0).2
           (mkProvisionResp "feature-x-abc1234-012345" "http://x.ngrok.io" 1613
              "abc1234def5678abc1234def5678abc1234def56")).
  by vm_compute.
Defined.



(** ** destroy, gc and list: C3, C4, C9 and C8 *)

Section Claims_sweep.

Context (cfg : Config) (ext : Ext).

(** What a gc request does, for every store and every oracle. *)
Lemma garbage_collect_spec w :
  let now := ext_time ext (EvTime :: trace w) in
  ∃ killed w',
    garbage_collect ext w = (inr killed, w') ∧
    sweep ext now (map_to_list (STATE w)) (clock_read w) killed w' ∧
    (∀ k, k ∈ killed → ∃ v, STATE w !! k = Some v ∧ expires_at v ≤ now) ∧
    (∀ k v, STATE w !! k = Some v → now < expires_at v → STATE w' !! k = Some v).
Proof.
  intros now.
  destruct (gc_loop_spec ext now (map_to_list (STATE w))
              (NoDup_fst_map_to_list _) (clock_read w) [])
    as (killed & w' & Hg & Hsw & Hkd & _ & Hkeep).
  { intros k v Hkv. by apply elem_of_map_to_list in Hkv. }
  exists killed, w'. split; [exact Hg|]. split; [exact Hsw|]. split.
  - intros k Hk. destruct (Hkd k Hk) as (v & Hv & ?).
    exists v. split; [by apply elem_of_map_to_list in Hv | done].
  - intros k v Hv ?. apply Hkeep; [|done]. by apply elem_of_map_to_list.
Qed.

Lemma list_envs_item w k v :
  STATE w !! k = Some v →
  mkEnvItem k v (minutes_left (ext_time ext (EvTime :: trace w)) v)
  ∈ ((λ kv, mkEnvItem kv.1 kv.2 (minutes_left (ext_time ext (EvTime :: trace w)) kv.2))
       <$> map_to_list (STATE w)).
Proof.
  intros Hv. apply list_elem_of_fmap. exists (k, v).
  split; [done | by apply elem_of_map_to_list].
Qed.


(** C4: a gc request always returns.  It is a sweep over the snapshot of the
    store at the clock reading [now]: the entries with expires_at <= now are
    destroyed one after the other, an entry whose destroy raises is passed
    over and the sweep goes on, and the ids returned are those whose destroy
    returned.  Every id returned had expires_at <= now; a record with
    expires_at > now, be it by one second, is not returned and is still in
    the store afterwards. *)
Theorem garbage_collect_sweeps_expired (w : World) :
  let now := ext_time ext (EvTime :: trace w) in
  ∃ killed w',
    garbage_collect ext w = (inr killed, w') ∧
    sweep ext now (map_to_list (STATE w)) (clock_read w) killed w' ∧
    (∀ k, k ∈ killed → ∃ v, STATE w !! k = Some v ∧ expires_at v ≤ now) ∧
    (∀ k v, STATE w !! k = Some v → now < expires_at v →
            (k ∉ killed) ∧ STATE w' !! k = Some v) ∧
    (∀ k v, STATE w !! k = Some v → expires_at v = now + 1 →
            (k ∉ killed) ∧ STATE w' !! k = Some v).
Proof.
  intros now.
  destruct (garbage_collect_spec w) as (killed & w' & Hg & Hsw & Hkd & Hkeep).
  fold now in Hsw, Hkd, Hkeep.
  assert (Hfut : ∀ k v, STATE w !! k = Some v → now < expires_at v →
                        (k ∉ killed) ∧ STATE w' !! k = Some v).
  { intros k v Hv Hlt. split; [|by apply Hkeep].
    intros (v' & Hv' & ?)%Hkd. rewrite Hv in Hv'. injection Hv' as <-. lia. }
  exists killed, w'. split; [done|]. split; [done|]. split; [done|].
  split; [exact Hfut|].
  intros k v Hv Heq. apply (Hfut k v Hv). lia.
Qed.

(** C9: the minutes that list reports are the floor of the remaining seconds
    over 60, cut at 0.  So a record with 0 < expires_at - now < 60 is listed
    with 0 minutes, while a gc request at the same clock reading neither
    returns its id nor removes it. *)
Theorem list_reports_zero_in_last_minute (w : World) (k : string) (v : EnvRec) :
  let now := ext_time ext (EvTime :: trace w) in
  STATE w !! k = Some v →
  0 < expires_at v - now < 60 →
  (∃ items,
     list_envs ext w = (inr items, clock_read w) ∧
     mkEnvItem k v 0 ∈ items ∧
     ∀ it, it ∈ items →
           ttl_min it = Z.max 0 ((expires_at (item_env it) - now) `div` 60)) ∧
  (∃ killed w',
     garbage_collect ext w = (inr killed, w') ∧
     (k ∉ killed) ∧ STATE w' !! k = Some v).
Proof.
  intros now Hv Hrem. split.
  - eexists. split; [apply list_envs_eq|]. split.
    + replace 0 with (minutes_left now v); [by apply list_envs_item|].
      unfold minutes_left. rewrite Z.div_small by lia. done.
    + intros it ([k' v'] & -> & _)%list_elem_of_fmap. done.
  - destruct (garbage_collect_spec w) as (killed & w' & Hg & _ & Hkd & Hkeep).
    fold now in Hkd, Hkeep. exists killed, w'. split; [done|]. split.
    + intros (v' & Hv' & ?)%Hkd. rewrite Hv in Hv'. injection Hv' as <-. lia.
    + apply Hkeep; [done | lia].
Qed.

Global Instance EnvRec_eq_dec : EqDecision EnvRec.
Proof. solve_decision. Defined.

(** provision leaves the table alone or puts a record under the id it drew
    once the branch had resolved. *)
Lemma provision_STATE_drawn req w :
  STATE (provision cfg ext req w).2 = STATE w ∨
  ∃ sha w1 rec,
    gh_branch_exists cfg ext (branch req) w = (inr sha, w1) ∧
    STATE (provision cfg ext req w).2 = <[new_env_id ext req sha w1 := rec]> (STATE w).
Proof.
  destruct (provision cfg ext req w) as [r w'] eqn:H. simpl.
  apply provision_cases in H.
  inversion H as [| e ? ? Hgh | sha w1 e ? ? Hgh ? Hq
                  | sha w1 u wp ? Hgh Hq id rec flushed]; subst.
  - by left.
  - left. by destruct (gh_branch_exists_quiet _ _ _ _ _ _ Hgh) as [(? & _) _].
  - left. destruct (gh_branch_exists_quiet _ _ _ _ _ _ Hgh) as [(? & _) _].
    destruct Hq as (? & _). simpl in *. by etrans.
  - right. exists sha, w1. eexists. split; [done|].
    destruct (gh_branch_exists_quiet _ _ _ _ _ _ Hgh) as [(Ha & _) _].
    destruct Hq as (Hb & _). simpl in *. by rewrite Hb, Ha.
Qed.

(** A request after which the record is no longer the one under its id is
    one of the three that can displace it. *)
Lemma step_displaces op w k v :
  STATE w !! k = Some v →
  STATE (step cfg ext op w) !! k ≠ Some v →
  displaces cfg ext k op w.
Proof.
  intros Hv Hne. destruct op as [req|req| |]; simpl in *.
  - destruct (provision_STATE_drawn req w) as [Hs | (sha & w1 & rec & Hgh & Hs)];
      rewrite Hs in Hne; [done|].
    exists sha, w1. split; [done|].
    destruct (decide (new_env_id ext req sha w1 = k)) as [|Hk]; [done|].
    by rewrite lookup_insert_ne in Hne.
  - destruct (destroy_STATE ext req w) as [Hs | Hs]; rewrite Hs in Hne; [done|].
    destruct (decide (env_id req = k)) as [|Hk]; [done|].
    by rewrite lookup_delete_ne in Hne.
  - done.
  - done.
Qed.

(** Along a sequence of requests the record stays under its id up to the
    first request that displaces it. *)
Lemma record_kept_until k v ops : ∀ w,
  STATE w !! k = Some v →
  STATE (run_ops cfg ext ops w) !! k ≠ Some v →
  ∃ pre op post,
    ops = pre ++ op :: post ∧
    STATE (run_ops cfg ext pre w) !! k = Some v ∧
    displaces cfg ext k op (run_ops cfg ext pre w).
Proof.
  induction ops as [|op ops IH]; intros w Hv Hne; [done|].
  destruct (decide (STATE (step cfg ext op w) !! k = Some v)) as [Hkept|Hgone].
  - destruct (IH (step cfg ext op w) Hkept Hne) as (pre & op' & post & -> & Hpre & Hd).
    by exists (op :: pre), op', post.
  - exists [], op, ops. split; [done|]. split; [done|].
    by apply (step_displaces op w k v).
Qed.

(** C8 (amended): a record whose expires_at has passed is still in the store
    and list reports it, with 0 minutes left; list itself leaves the store
    as it is.  The passing of time removes nothing: the only requests after
    which the id is gone are a destroy of that id and a gc, and the only
    requests after which the record is no longer the one under its id are
    those two and a provision that draws the same id and so replaces the
    record.  Along any sequence of requests the record stays where it is up
    to the first such request. *)
Theorem expired_record_stays_listed (w : World) (k : string) (v : EnvRec) :
  STATE w !! k = Some v →
  expires_at v ≤ ext_time ext (EvTime :: trace w) →
  (∃ items, list_envs ext w = (inr items, clock_read w) ∧ mkEnvItem k v 0 ∈ items) ∧
  STATE (step cfg ext OpList w) = STATE w ∧
  (∀ op, STATE (step cfg ext op w) !! k = None →
         op = OpGC ∨ ∃ req, op = OpDestroy req ∧ env_id req = k) ∧
  (∀ op, STATE (step cfg ext op w) !! k ≠ Some v → displaces cfg ext k op w) ∧
  (∀ ops, STATE (run_ops cfg ext ops w) !! k ≠ Some v →
          ∃ pre op post,
            ops = pre ++ op :: post ∧
            STATE (run_ops cfg ext pre w) !! k = Some v ∧
            displaces cfg ext k op (run_ops cfg ext pre w)).
Proof.
  intros Hv Hexp. split; [|split; [|split; [|split]]].
  - eexists. split; [apply list_envs_eq|].
    replace 0 with (minutes_left (ext_time ext (EvTime :: trace w)) v);
      [by apply list_envs_item|].
    unfold minutes_left. apply Z.max_l.
    apply Z.div_le_upper_bound; lia.
  - done.
  - intros [req|req| |] Hnone; simpl in Hnone.
    + exfalso.
      destruct (provision_STATE cfg ext req w) as [Hs | (sha & w1 & u & wp & Hs)];
        rewrite Hs in Hnone.
      * by rewrite Hv in Hnone.
      * apply lookup_insert_None in Hnone as [Hnone _]. by rewrite Hv in Hnone.
    + right. exists req. split; [done|].
      destruct (destroy_STATE ext req w) as [Hs | Hs]; rewrite Hs in Hnone.
      * by rewrite Hv in Hnone.
      * apply lookup_delete_None in Hnone as [Hnone | Hnone]; [done|].
        by rewrite Hv in Hnone.
    + by rewrite Hv in Hnone.
    + by left.
  - intros op. by apply step_displaces.
  - intros ops. by apply record_kept_until.
Qed.

End Claims_sweep.

(** C4, on a sweep in which one destroy raises: the snapshot is walked in
    the order c, a, b, d; the destroy of "b" raises, the sweep goes on and
    returns c and a; "d", one second short of its expiry, is left alone. *)
Lemma sweep_passes_over_failed_destroy :
  let out := garbage_collect ext_flaky w_four in
  (destroy ext_flaky (mkDestroyReq "b")
     (destroy ext_flaky (mkDestroyReq "a")
        (destroy ext_flaky (mkDestroyReq "c") (clock_read w_four)).2).2).1
  = inl OSError ∧
  out.1 = inr ["c"; "a"] ∧
  map_to_list (STATE out.2) = [("d", rec_at "d" 1002)] ∧
  elements (dirs out.2) = ["/data/qa-envs/d"].
Proof. repeat split; by vm_compute. Qed.



(** C8 as stated fails: the expired record sits under the id that the next
    provision draws.  No destroy and no gc is invoked, yet after that
    provision the expired record is no longer in the store, and list
    reports the id with 119 minutes left, not 0. *)
Lemma expired_record_replaced_counterexample :
  let id := "feature-x-abc1234-012345" in
  let w' := step cfg0 ext_same_uuid (OpProvision (req_x None)) w_stale in
  STATE w_stale !! id = Some stale_record ∧
  expires_at stale_record ≤ ext_time ext_same_uuid (EvTime :: trace w_stale) ∧
  expires_at stale_record ≤ ext_time ext_same_uuid (EvTime :: trace w') ∧
  STATE w' !! id ≠ Some stale_record ∧
  (list_envs ext_same_uuid w').1
  = inr [mkEnvItem id
           (mkEnvRec "feature/x" "abc1234def5678abc1234def5678abc1234def56"
              "http://x.ngrok.io" 8080 "/data/qa-envs/feature-x-abc1234-012345"
              1014 8213)
           119].
Proof. repeat split; by vm_compute. Qed.

(** C8 (amended), at the expired record "a" of the store of four. *)
Lemma expired_record_stays_listed_witness :
  (∃ items, list_envs ext_ok w_four = (inr items, clock_read w_four)
            ∧ mkEnvItem "a" (rec_at "a" 500) 0 ∈ items) ∧
  STATE (step cfg0 ext_ok OpList w_four) = STATE w_four ∧
  (∀ op, STATE (step cfg0 ext_ok op w_four) !! "a" = None →
         op = OpGC ∨ ∃ req, op = OpDestroy req ∧ env_id req = "a") ∧
  (∀ op, STATE (step cfg0 ext_ok op w_four) !! "a" ≠ Some (rec_at "a" 500) →
         displaces cfg0 ext_ok "a" op w_four) ∧
  (∀ ops, STATE (run_ops cfg0 ext_ok ops w_four) !! "a" ≠ Some (rec_at "a" 500) →
          ∃ pre op post,
            ops = pre ++ op :: post ∧
            STATE (run_ops cfg0 ext_ok pre w_four) !! "a" = Some (rec_at "a" 500) ∧
            displaces cfg0 ext_ok "a" op (run_ops cfg0 ext_ok pre w_four)).
Proof.
  apply (expired_record_stays_listed cfg0 ext_ok w_four "a" (rec_at "a" 500)).
  - by vm_compute.
  - by vm_compute.
Defined.

(** C9, at the record "d" of the store of four, one second short of its
    expiry. *)
Lemma list_reports_zero_in_last_minute_witness :
  (∃ items,
     list_envs ext_ok w_four = (inr items, clock_read w_four) ∧
     mkEnvItem "d" (rec_at "d" 1002) 0 ∈ items ∧
     ∀ it, it ∈ items →
           ttl_min it = Z.max 0 ((expires_at (item_env it) - 1001) `div` 60)) ∧
  (∃ killed w',
     garbage_collect ext_ok w_four = (inr killed, w') ∧
     ("d" ∉ killed) ∧ STATE w' !! "d" = Some (rec_at "d" 1002)).
Proof.
  apply (list_reports_zero_in_last_minute ext_ok w_four "d" (rec_at "d" 1002)).
  - by vm_compute.
  - by vm_compute.
Defined.

(** * Further properties of the code *)

(** ** Ids and the allow-list *)

Lemma has_char_app c a b : has_char c (a +:+ b) = has_char c a || has_char c b.
Proof.
  induction a as [|x a IH]; simpl; [done|].
  rewrite IH. by rewrite orb_assoc.
Qed.

Lemma has_char_replace a b s : a ≠ b → has_char a (Py.replace a b s) = false.
Proof.
  intros Hab. induction s as [|x s IH]; simpl; [done|].
  rewrite IH, orb_false_r.
  destruct (Ascii.eqb_spec x a) as [->|Hx].
  - apply Ascii.eqb_neq. congruence.
  - by apply Ascii.eqb_neq.
Qed.

Lemma has_char_take c n s : has_char c s = false → has_char c (Py.take n s) = false.
Proof.
  revert s. induction n as [|n IH]; intros [|x s]; simpl; try done.
  intros [Hx Hs]%orb_false_iff. rewrite Hx. simpl. by apply IH.
Qed.

Lemma replace_idem a b s : a ≠ b → Py.replace a b (Py.replace a b s) = Py.replace a b s.
Proof.
  intros Hab. induction s as [|x s IH]; simpl; [done|].
  rewrite IH. f_equal.
  destruct (Ascii.eqb_spec x a) as [->|Hx].
  - destruct (Ascii.eqb_spec b a); congruence.
  - by destruct (Ascii.eqb_spec x a).
Qed.

(** X1: an environment id has no path separator, whatever the branch name,
    as long as the commit id and the random suffix have none; and the id
    does not tell a "/" of the branch name from a "-". *)
Theorem env_id_is_one_path_segment (b sha hex : string) :
  has_char "/" sha = false →
  has_char "/" hex = false →
  has_char "/" (make_env_id b sha hex) = false ∧
  make_env_id (Py.replace "/" "-" b) sha hex = make_env_id b sha hex.
Proof.
  intros Hs Hh. unfold make_env_id. split.
  - rewrite !has_char_app, has_char_replace by done.
    by rewrite !has_char_take.
  - by rewrite replace_idem.
Qed.

Lemma env_id_is_one_path_segment_witness :
  has_char "/" (make_env_id "feature/x" "abc1234def" "0123456789ab") = false ∧
  make_env_id (Py.replace "/" "-" "feature/x") "abc1234def" "0123456789ab"
  = make_env_id "feature/x" "abc1234def" "0123456789ab".
Proof. apply env_id_is_one_path_segment; reflexivity. Defined.

Lemma lstrip_head s c t : Py.lstrip s = String c t → Py.is_space c = false.
Proof.
  induction s as [|x s IH]; simpl; [done|].
  destruct (Py.is_space x) eqn:Hx; [done|]. by intros [= <- _].
Qed.

Lemma rstrip_cons c s :
  Py.is_space c = false → Py.rstrip (String c s) = String c (Py.rstrip s).
Proof. intros Hc. simpl. rewrite Hc. by destruct (Py.rstrip s). Qed.

Lemma rstrip_idem s : Py.rstrip (Py.rstrip s) = Py.rstrip s.
Proof.
  induction s as [|c s IH]; [done|]. simpl.
  destruct (Py.rstrip s) as [|d t] eqn:Hr.
  - destruct (Py.is_space c) eqn:Hc; [done|]. simpl. by rewrite Hc.
  - change (Py.rstrip (String c (String d t))) with
      (match Py.rstrip (String d t) with
       | EmptyString => if Py.is_space c then EmptyString else String c EmptyString
       | u => String c u
       end).
    by rewrite IH.
Qed.

Lemma strip_idem s : Py.strip (Py.strip s) = Py.strip s.
Proof.
  unfold Py.strip. destruct (Py.lstrip s) as [|c t] eqn:Hl; [done|].
  pose proof (lstrip_head _ _ _ Hl) as Hc.
  rewrite (rstrip_cons c t Hc). simpl. rewrite Hc.
  by rewrite <- (rstrip_cons c _ Hc), rstrip_idem, rstrip_cons.
Qed.

Lemma is_ascii_lstrip s : is_ascii s = true → is_ascii (Py.lstrip s) = true.
Proof.
  induction s as [|c s IH]; simpl; [done|].
  intros [Hc Hs]%andb_true_iff. destruct (Py.is_space c); [by apply IH|].
  simpl. by rewrite Hc, Hs.
Qed.

Lemma is_ascii_rstrip s : is_ascii s = true → is_ascii (Py.rstrip s) = true.
Proof.
  induction s as [|c s IH]; simpl; [done|].
  intros [Hc Hs]%andb_true_iff. specialize (IH Hs).
  destruct (Py.rstrip s) as [|d t].
  - destruct (Py.is_space c); [done|]. simpl. by rewrite Hc.
  - change (is_ascii (String c (String d t)))
      with ((nat_of_ascii c <? 128)%nat && is_ascii (String d t)).
    by rewrite Hc, IH.
Qed.

Lemma is_ascii_split c s p :
  is_ascii s = true → p ∈ split_on c s → is_ascii p = true.
Proof.
  revert p. induction s as [|a s IH]; intros p; simpl.
  - by intros _ ->%list_elem_of_singleton.
  - intros [Ha Hs]%andb_true_iff. destruct (Ascii.eqb a c).
    + intros [->|Hp]%elem_of_cons; [done | by apply IH].
    + destruct (split_on c s) as [|h t] eqn:Hsp.
      * intros ->%list_elem_of_singleton. simpl. by rewrite Ha.
      * intros [->|Hp]%elem_of_cons.
        -- simpl. rewrite Ha. apply IH; [done | left].
        -- apply IH; [done | by right].
Qed.

(** X2: when the value of ALLOWED_SERVICES is ASCII text (or the variable
    is unset), no name of the allow-list is empty and none has white space
    around it, and every name is ASCII; so a service name that is empty, or
    padded, is never accepted.  (Outside ASCII, str.strip() knows white
    space that [Py.strip] does not.) *)
Theorem allowed_names_are_stripped (raw : option string) (x : string) :
  (∀ s, raw = Some s → is_ascii s = true) →
  x ∈ parse_allowed raw →
  x ≠ "" ∧ Py.strip x = x ∧ is_ascii x = true.
Proof.
  intros Hraw. unfold parse_allowed.
  intros (p & -> & [Hp Hin]%list_elem_of_filter)%list_elem_of_fmap.
  split; [done|]. split; [apply strip_idem|].
  apply is_ascii_rstrip, is_ascii_lstrip.
  eapply is_ascii_split; [|exact Hin].
  destruct raw as [s|]; [by apply Hraw | reflexivity].
Qed.

Lemma allowed_names_are_stripped_witness :
  "api" ≠ "" ∧ Py.strip "api" = "api" ∧ is_ascii "api" = true.
Proof.
  apply (allowed_names_are_stripped (Some " web , ,api,")).
  - by intros s [= <-].
  - vm_compute. right. left.
Defined.

(** ** The helpers: run, gh_branch_exists, ensure_network, start_ngrok *)

Section Helpers.

Context (cfg : Config) (ext : Ext).

Lemma run_eq cmd cwd w :
  run ext cmd cwd w =
    (let p := ext_run ext (EvRun cmd cwd :: trace w) in
     if returncode p =? 0 then inr (Py.strip (stdout p))
     else inl (HTTPException 500
                 ("Erro: " +:+ Py.join " " cmd +:+ Py.nl +:+ stdout p +:+ Py.nl
                  +:+ stderr p)),
     logged (EvRun cmd cwd) w).
Proof.
  unfold run. cbv [mbind M_bind emit ask]. simpl.
  by destruct (returncode _ =? 0).
Qed.

(** [try: run(cmd) except: pass] *)
Lemma try_run_eq cmd cwd w :
  try_except (run ext cmd cwd;; mret tt) (λ _, mret tt) w
  = (inr tt, logged (EvRun cmd cwd) w).
Proof.
  unfold try_except. cbv [mbind M_bind]. rewrite run_eq. simpl.
  by destruct (returncode _ =? 0).
Qed.

(** X3: when the token, the owner or the repository is not set, the branch
    lookup fails with status 400 and sends no request: the world is as it
    was. *)
Theorem gh_branch_exists_needs_settings (b : string) (w : World) :
  ¬ github_configured cfg →
  ∃ e, gh_branch_exists cfg ext b w = (inl e, w) ∧ InvalidInput e.
Proof.
  intros Hn. unfold gh_branch_exists.
  destruct (Py.truthy (GITHUB_TOKEN cfg)) eqn:Ht,
           (Py.truthy (OWNER cfg)) eqn:Ho,
           (Py.truthy (REPO cfg)) eqn:Hr; simpl;
    try (eexists; split; [reflexivity | by eexists]).
  destruct Hn. by repeat split.
Qed.

(** X4: ensure_network asks for the network first and creates it only when
    that command did not succeed; it returns normally exactly when one of
    the two commands succeeded. *)
Theorem ensure_network_creates_on_demand (w : World) :
  let inspect := EvRun ["docker"; "network"; "inspect"; DOCKER_NETWORK cfg] None in
  let create := EvRun ["docker"; "network"; "create"; DOCKER_NETWORK cfg] None in
  let ok1 := returncode (ext_run ext (inspect :: trace w)) =? 0 in
  let ok2 := returncode (ext_run ext (create :: inspect :: trace w)) =? 0 in
  (ensure_network cfg ext w).2
  = (if ok1 then extended [inspect] w else extended [create; inspect] w) ∧
  ((ensure_network cfg ext w).1 = inr tt ↔ ok1 || ok2 = true).
Proof.
  intros inspect create ok1 ok2.
  unfold ensure_network, try_except. cbv [mbind M_bind]. rewrite run_eq. simpl.
  fold inspect. fold ok1. destruct ok1; simpl.
  { by split. }
  rewrite run_eq. simpl. fold inspect create. fold ok2. destruct ok2; simpl.
  - by split.
  - split; [done|]. by split.
Qed.

Lemma poll_tunnel_eq w :
  poll_tunnel ext w
  = (inr (tunnel_url (ext_tunnels ext (tunnels_api :: trace w))), logged tunnels_api w).
Proof.
  unfold poll_tunnel, try_except, tunnel_url. cbv [mbind M_bind emit ask]. simpl.
  destruct (ext_tunnels ext _) as [tunnels|]; [|done].
  destruct (filter _ tunnels) as [|t ?]; [done|].
  by destruct (public_url t).
Qed.

Lemma failed_polls_snoc n :
  failed_polls n ++ [EvSleep; tunnels_api] = EvSleep :: tunnels_api :: failed_polls n.
Proof.
  unfold failed_polls. induction n as [|n IH]; [done|].
  simpl. by rewrite IH.
Qed.

(** The loop of lines 73-81: it stops at the first look that yields a URL,
    after [k] fruitless ones, or gives up after [n]. *)
Lemma wait_tunnel_spec n : ∀ w,
  (∃ k u, (k < n)%nat ∧
          wait_tunnel ext n w = (inr (Some u), extended (tunnels_api :: failed_polls k) w) ∧
          tunnel_url (ext_tunnels ext (tunnels_api :: failed_polls k ++ trace w)) = Some u) ∨
  wait_tunnel ext n w = (inr None, extended (failed_polls n) w).
Proof.
  induction n as [|n IH]; intros w; [right; by destruct w|].
  simpl. rewrite (bind_ok _ _ _ _ _ (poll_tunnel_eq w)).
  destruct (tunnel_url _) as [u|] eqn:Hu.
  { left. exists 0%nat, u. split; [lia|]. by split. }
  change ((emit EvSleep;; wait_tunnel ext n) (logged tunnels_api w))
    with (wait_tunnel ext n (extended [EvSleep; tunnels_api] w)).
  destruct (IH (extended [EvSleep; tunnels_api] w)) as [(k & u & Hk & Hw & Hurl)|Hw].
  - left. exists (S k), u. split; [lia|]. rewrite Hw. unfold extended in *. simpl in *.
    change (EvSleep :: tunnels_api :: trace w) with ([EvSleep; tunnels_api] ++ trace w) in *.
    rewrite app_assoc, failed_polls_snoc in *. by split.
  - right. rewrite Hw. unfold extended. simpl.
    change (EvSleep :: tunnels_api :: trace w) with ([EvSleep; tunnels_api] ++ trace w).
    by rewrite app_assoc, failed_polls_snoc.
Qed.

(** start_ngrok once the authtoken is there: the process is spawned and the
    loop of forty looks runs. *)
Lemma start_ngrok_spawned p w :
  Py.truthy (NGROK_AUTHTOKEN cfg) = true →
  start_ngrok cfg ext p w =
    (r ← wait_tunnel ext 40;
     match r with
     | Some u => mret u
     | None => emit EvTerminate;; raise (HTTPException 500 "Falha ao abrir túnel ngrok")
     end) (mkWorld (STATE w) (STATE_DB w) (dirs w) (ngrok_spawned cfg p w)).
Proof.
  intros Ht. unfold start_ngrok. rewrite Ht. simpl.
  by rewrite (bind_ok _ _ _ _ _ (try_run_eq _ _ w)).
Qed.

(** X5: when start_ngrok fails with an HTTP error, it is one of two.
    Status 400 means that there is no authtoken and nothing was done: no
    process was spawned.  Status 500 means that the process was spawned and
    forty looks at the agent API, each followed by a sleep, found no URL;
    the last thing done was to terminate the process. *)
Theorem start_ngrok_failure (p : Z) (w w' : World) (c : Z) (d : string) :
  start_ngrok cfg ext p w = (inl (HTTPException c d), w') →
  (Py.truthy (NGROK_AUTHTOKEN cfg) = false ∧
   c = 400 ∧ d = "NGROK_AUTHTOKEN ausente" ∧ w' = w) ∨
  (Py.truthy (NGROK_AUTHTOKEN cfg) = true ∧
   c = 500 ∧ d = "Falha ao abrir túnel ngrok" ∧
   w' = mkWorld (STATE w) (STATE_DB w) (dirs w)
                (EvTerminate :: failed_polls 40 ++ ngrok_spawned cfg p w)).
Proof.
  destruct (Py.truthy (NGROK_AUTHTOKEN cfg)) eqn:Ht.
  - rewrite (start_ngrok_spawned p w Ht).
    set (ws := mkWorld _ _ _ _).
    destruct (wait_tunnel_spec 40 ws) as [(k & u & _ & Hw & _)|Hw];
      rewrite (bind_ok _ _ _ _ _ Hw); [done|].
    intros [= <- <- <-]. right. by repeat split.
  - unfold start_ngrok. rewrite Ht. simpl. intros [= <- <- <-]. by left.
Qed.

(** X6: when start_ngrok returns a URL, it took at most forty looks at the
    agent API; the URL is the public_url of the first tunnel with proto
    "http" in the answer to the last look; and the tunnel process is left
    running: the trace since the spawn holds looks and sleeps only. *)
Theorem start_ngrok_success (p : Z) (w w' : World) (u : string) :
  start_ngrok cfg ext p w = (inr u, w') →
  ∃ k, (k < 40)%nat ∧
       w' = mkWorld (STATE w) (STATE_DB w) (dirs w)
                    (tunnels_api :: failed_polls k ++ ngrok_spawned cfg p w) ∧
       tunnel_url (ext_tunnels ext (trace w')) = Some u.
Proof.
  destruct (Py.truthy (NGROK_AUTHTOKEN cfg)) eqn:Ht.
  - rewrite (start_ngrok_spawned p w Ht).
    set (ws := mkWorld _ _ _ _).
    destruct (wait_tunnel_spec 40 ws) as [(k & u' & Hk & Hw & Hurl)|Hw];
      rewrite (bind_ok _ _ _ _ _ Hw); [|done].
    intros [= <- <-]. exists k. by repeat split.
  - unfold start_ngrok. by rewrite Ht.
Qed.

(** X7: the agent API is only ever asked for tunnels of proto "http".  If no
    answer ever lists one, start_ngrok gives up with status 500, however
    many tunnels of other protos are up. *)
Theorem start_ngrok_wants_http (p : Z) (w : World) :
  Py.truthy (NGROK_AUTHTOKEN cfg) = true →
  (∀ tr tunnels, ext_tunnels ext tr = Some tunnels →
                 ∀ t, t ∈ tunnels → proto t ≠ Some "http") →
  ∃ w', start_ngrok cfg ext p w
        = (inl (HTTPException 500 "Falha ao abrir túnel ngrok"), w').
Proof.
  intros Ht Hno. rewrite (start_ngrok_spawned p w Ht).
  set (ws := mkWorld _ _ _ _).
  destruct (wait_tunnel_spec 40 ws) as [(k & u & _ & _ & Hurl)|Hw].
  - exfalso. unfold tunnel_url in Hurl.
    destruct (ext_tunnels ext _) as [tunnels|] eqn:Ha; [|done].
    destruct (filter _ tunnels) as [|t ?] eqn:Hf; [done|].
    assert (Hin : t ∈ filter (λ t, proto t = Some "http") tunnels)
      by (rewrite Hf; left).
    apply list_elem_of_filter in Hin as [Hp Hin].
    by apply (Hno _ _ Ha t Hin).
  - rewrite (bind_ok _ _ _ _ _ Hw). by eexists.
Qed.

End Helpers.

(** ** provision, and what follows it *)

Section After_provision.

Context (cfg : Config) (ext : Ext).

Lemma provision_ok_service req w resp w' :
  provision cfg ext req w = (inr resp, w') → service req ∈ ALLOWED cfg.
Proof.
  unfold provision. destruct (bool_decide _) eqn:Hs; simpl; [|done].
  intros _. by apply bool_decide_eq_true in Hs.
Qed.

(** [try: shutil.rmtree(p, ignore_errors=True) except: pass] *)
Lemma try_rmtree_eq p w :
  try_except (rmtree ext p) (λ _, mret tt) w
  = (inr tt,
     mkWorld (STATE w) (STATE_DB w)
             (if ext_rmtree ext (EvRmtree p :: trace w) then dirs w ∖ {[p]} else dirs w)
             (EvRmtree p :: trace w)).
Proof.
  unfold try_except, rmtree. cbv [mbind M_bind emit ask set_dirs]. simpl.
  by destruct (ext_rmtree ext _).
Qed.

Lemma save_state_eq w :
  save_state ext w
  = (if ext_write ext (EvWriteState :: trace w) then inr tt else inl OSError,
     mkWorld (STATE w)
             (if ext_write ext (EvWriteState :: trace w) then STATE w else STATE_DB w)
             (dirs w) (EvWriteState :: trace w)).
Proof.
  unfold save_state. cbv [mbind M_bind emit ask flush_STATE raise]. simpl.
  by destruct (ext_write ext _).
Qed.

(** A call followed by the return of a value. *)
Lemma bind_assoc_pw_ret {A B} (m : M A) (b : B) w :
  (m;; mret b) w = (match (m w).1 with inl e => inl e | inr _ => inr b end, (m w).2).
Proof. cbv [mbind M_bind]. by destruct (m w) as [[?|?] ?]. Qed.

(** The whole of a destroy of a present id: the probe, the one teardown
    command, the removal of the tree, the rewrite of state.json. *)
Lemma destroy_present_eq req w v :
  STATE w !! env_id req = Some v →
  let probe := EvExists (path_join (workdir v) "docker-compose.qa.yml") in
  let down := teardown_of (ext_exists ext (probe :: trace w)) (env_id req) (workdir v) in
  let tr := EvRmtree (workdir v) :: down :: probe :: trace w in
  let flushed := ext_write ext (EvWriteState :: tr) in
  destroy ext req w =
    (if flushed then inr true else inl OSError,
     mkWorld (delete (env_id req) (STATE w))
             (if flushed then delete (env_id req) (STATE w) else STATE_DB w)
             (if ext_rmtree ext tr then dirs w ∖ {[workdir v]} else dirs w)
             (EvWriteState :: tr)).
Proof.
  intros H probe down tr flushed. unfold destroy.
  rewrite (bind_ok get_STATE _ w (STATE w) w eq_refl), H.
  rewrite (bind_ok _ _ w (ext_exists ext (probe :: trace w)) (logged probe w) eq_refl).
  assert (Hdown : (if ext_exists ext (probe :: trace w)
                   then try_except
                          (run ext ["docker"; "compose"; "-f"; "docker-compose.qa.yml";
                                    "down"; "-v"] (Some (workdir v));; mret tt)
                          (λ _, mret tt)
                   else try_except
                          (run ext ["docker"; "rm"; "-f"; env_id req] None;; mret tt)
                          (λ _, mret tt)) (logged probe w)
                  = (inr tt, logged down (logged probe w))).
  { subst down. destruct (ext_exists ext _); apply try_run_eq. }
  rewrite (bind_ok _ _ _ _ _ Hdown).
  rewrite (bind_ok _ _ _ _ _ (try_rmtree_eq _ _)).
  unfold logged. simpl. fold tr.
  set (w3 := mkWorld _ _ _ tr).
  rewrite (bind_ok (set_STATE _) _ w3 tt _ eq_refl).
  unfold w3, set_STATE. simpl. rewrite bind_assoc_pw_ret, save_state_eq. simpl.
  fold flushed. by destruct flushed.
Qed.

(** X8: a provision that returns has committed its record under the id it
    returns: the record carries the branch of the request and the commit,
    URL and expiry of the reply, port 8080, and a workdir that is BASE/id
    and exists on disk; the other records are untouched and state.json
    holds the new table.  The service was in the allow-list, and the id is
    made of the branch, the commit and a random suffix. *)
Theorem provision_commits_record
    (req : ProvisionReq) (w w' : World) (resp : ProvisionResp) :
  provision cfg ext req w = (inr resp, w') →
  service req ∈ ALLOWED cfg ∧
  (∃ hex, resp_env_id resp = make_env_id (branch req) (resp_sha resp) hex) ∧
  (∃ rec, STATE w' !! resp_env_id resp = Some rec ∧
          env_branch rec = branch req ∧ sha rec = resp_sha resp ∧
          url rec = resp_url resp ∧ expires_at rec = resp_expires_at resp ∧
          port rec = 8080 ∧
          workdir rec = path_join (BASE cfg) (resp_env_id resp) ∧
          workdir rec ∈ dirs w') ∧
  (∀ k, k ≠ resp_env_id resp → STATE w' !! k = STATE w !! k) ∧
  STATE_DB w' = STATE w'.
Proof.
  intros H. split; [by eapply provision_ok_service|].
  apply provision_ok_inv in H as (sha & w1 & url & wp & Hgh & Hq & -> & ->).
  destruct (gh_branch_exists_quiet _ _ _ _ _ _ Hgh) as [(Ha & _) _].
  destruct Hq as (Hb & _ & Hd & _). simpl in *.
  split; [by eexists|]. split; [|split; [|done]].
  - eexists. split; [apply lookup_insert_eq|]. simpl.
    repeat split. rewrite Hd. by apply elem_of_union_l, elem_of_singleton.
  - intros k Hk. rewrite lookup_insert_ne by done. by rewrite Hb, Ha.
Qed.

(** X9: list right after a provision reports the new environment, with the
    URL and the expiry of the reply, and with the minutes that this expiry
    leaves at the clock reading of the list. *)
Theorem provision_then_list
    (req : ProvisionReq) (w w' : World) (resp : ProvisionResp) :
  provision cfg ext req w = (inr resp, w') →
  ∃ items it,
    list_envs ext w' = (inr items, clock_read w') ∧ it ∈ items ∧
    item_env_id it = resp_env_id resp ∧
    url (item_env it) = resp_url resp ∧
    expires_at (item_env it) = resp_expires_at resp ∧
    ttl_min it
    = Z.max 0 ((resp_expires_at resp - ext_time ext (EvTime :: trace w')) `div` 60).
Proof.
  intros (sha & w1 & u & wp & _ & _ & -> & ->)%provision_ok_inv.
  eexists _, _. split; [apply list_envs_eq|]. split.
  - apply list_envs_item. simpl. apply lookup_insert_eq.
  - done.
Qed.



End After_provision.

(** ** destroy, gc and list, once more *)

Section After_destroy.

Context (cfg : Config) (ext : Ext).


Lemma provision_synced req w :
  writes_succeed ext → synced w → synced (provision cfg ext req w).2.
Proof.
  intros Hw Hs. destruct (provision cfg ext req w) as [r w'] eqn:H. simpl.
  apply provision_cases in H. unfold synced in *.
  inversion H as [| e ? ? Hgh | sha w1 e ? ? Hgh ? Hq
                  | sha w1 u wp ? Hgh Hq id rec flushed]; subst.
  - done.
  - destruct (gh_branch_exists_quiet _ _ _ _ _ _ Hgh) as [(Ha & Ha' & _) _].
    by rewrite Ha, Ha'.
  - destruct (gh_branch_exists_quiet _ _ _ _ _ _ Hgh) as [(Ha & Ha' & _) _].
    destruct Hq as (Hb & Hb' & _). simpl in *. by rewrite Hb, Hb', Ha, Ha'.
  - subst flushed. simpl. by rewrite Hw.
Qed.

Lemma destroy_synced req w :
  writes_succeed ext → synced w → synced (destroy ext req w).2.
Proof.
  intros Hw Hs. destruct (STATE w !! env_id req) as [v|] eqn:Hv.
  - rewrite (destroy_present_eq ext req w v Hv). unfold synced. simpl.
    by rewrite Hw.
  - by rewrite destroy_absent.
Qed.

(** One turn of the loop of gc on an entry that is in the table. *)
Lemma gc_loop_turn now k v0 v rest acc w :
  STATE w !! k = Some v →
  ∃ acc',
    gc_loop ext now ((k, v0) :: rest) acc w
    = if expires_at v <=? now
      then gc_loop ext now rest acc' (destroy ext (mkDestroyReq k) w).2
      else gc_loop ext now rest acc w.
Proof.
  intros Hv. simpl. rewrite (bind_ok _ _ _ _ _ (getitem_present _ _ _ Hv)).
  destruct (expires_at v <=? now); [|by exists acc].
  pose proof (try_destroy_world ext (mkDestroyReq k) (acc ++ [k]) acc w) as Hw.
  destruct (try_destroy_returns ext (mkDestroyReq k) (acc ++ [k]) acc w) as [a Ha].
  destruct (try_except _ _ w) as [r w1] eqn:Ht. simpl in Hw, Ha. subst r w1.
  exists a. by rewrite (bind_ok _ _ _ _ _ Ht).
Qed.

Lemma gc_loop_synced now items : ∀ acc w,
  writes_succeed ext → synced w → synced (gc_loop ext now items acc w).2.
Proof.
  induction items as [|[k v0] rest IH]; intros acc w Hw Hs; [done|].
  destruct (STATE w !! k) as [v|] eqn:Hk.
  - destruct (gc_loop_turn now k v0 v rest acc w Hk) as [acc' ->].
    destruct (expires_at v <=? now); apply IH; try done.
    by apply destroy_synced.
  - simpl. rewrite (bind_err _ _ _ (KeyError k) w); [done|].
    unfold getitem. cbv [mbind M_bind get_STATE]. by rewrite Hk.
Qed.

Lemma step_synced op w :
  writes_succeed ext → synced w → synced (step cfg ext op w).
Proof.
  intros Hw Hs. destruct op as [req|req| |]; simpl.
  - by apply provision_synced.
  - by apply destroy_synced.
  - done.
  - unfold garbage_collect, time. cbv [mbind M_bind emit ask get_STATE]. simpl.
    by apply gc_loop_synced.
Qed.

(** X13: as long as state.json can be rewritten, it holds the table after
    every request: whatever the requests and however they end, what would be
    read back at a restart is the table in memory. *)
Theorem store_file_mirrors_table (ops : list Op) (w : World) :
  writes_succeed ext → synced w → synced (run_ops cfg ext ops w).
Proof.
  intros Hw. revert w. induction ops as [|op ops IH]; intros w Hs; [done|].
  simpl. apply IH. by apply step_synced.
Qed.



Lemma gc_loop_idle now items : ∀ acc w,
  (∀ k v0, (k, v0) ∈ items → ∃ v, STATE w !! k = Some v ∧ now < expires_at v) →
  gc_loop ext now items acc w = (inr acc, w).
Proof.
  induction items as [|[k v0] rest IH]; intros acc w Hall; [done|].
  destruct (Hall k v0) as (v & Hv & Hlt); [left|].
  destruct (gc_loop_turn now k v0 v rest acc w Hv) as [acc' ->].
  destruct (Z.leb_spec (expires_at v) now); [lia|].
  apply IH. intros k' v' Hr. apply (Hall k' v'). by right.
Qed.

(** X15: a gc request at a time when nothing has expired returns the empty
    list and does nothing at all besides reading the clock: no command is
    run, nothing is removed, state.json is not rewritten. *)
Theorem gc_before_any_expiry (w : World) :
  (∀ k v, STATE w !! k = Some v → ext_time ext (EvTime :: trace w) < expires_at v) →
  garbage_collect ext w = (inr [], clock_read w).
Proof.
  intros Hall.
  change (garbage_collect ext w)
    with (gc_loop ext (ext_time ext (EvTime :: trace w)) (map_to_list (STATE w)) []
            (clock_read w)).
  apply gc_loop_idle. intros k v Hkv%elem_of_map_to_list.
  exists v. split; [done | by apply (Hall k v)].
Qed.

(** X16: list is a snapshot of the table: one item per record, under
    distinct ids, each with the record stored under its id; it changes
    nothing but the trace.  The minutes it reports are never negative and
    never more than the time that is left. *)
Theorem list_envs_is_a_snapshot (w : World) :
  let now := ext_time ext (EvTime :: trace w) in
  ∃ items,
    list_envs ext w = (inr items, clock_read w) ∧
    length items = size (STATE w) ∧
    NoDup (item_env_id <$> items) ∧
    ∀ it, it ∈ items →
          STATE w !! item_env_id it = Some (item_env it) ∧
          0 ≤ ttl_min it ∧
          ttl_min it * 60 ≤ Z.max 0 (expires_at (item_env it) - now).
Proof.
  intros now. eexists. split; [apply list_envs_eq|]. split; [|split].
  - by rewrite length_fmap, length_map_to_list.
  - rewrite <- list_fmap_compose.
    apply (NoDup_fst_map_to_list (STATE w)).
  - intros it ([k v] & -> & Hkv)%list_elem_of_fmap. simpl.
    split; [by apply elem_of_map_to_list|]. fold now. unfold minutes_left.
    split; [lia|].
    pose proof (Z.mul_div_le (expires_at v - now) 60). lia.
Qed.

End After_destroy.

(** ** The further properties at concrete calls *)

Lemma gh_branch_exists_needs_settings_witness :
  ∃ e, gh_branch_exists cfg_no_github ext_ok "feature/x" w0 = (inl e, w0)
       ∧ InvalidInput e.
Proof.
  apply (gh_branch_exists_needs_settings cfg_no_github ext_ok "feature/x" w0).
  intros (H & _). vm_compute in H. discriminate.
Defined.

Lemma start_ngrok_failure_witness :
  let out := start_ngrok cfg0 ext_no_tunnel 8080 w0 in
  let d := "Falha ao abrir túnel ngrok" in
  (Py.truthy (NGROK_AUTHTOKEN cfg0) = false ∧
   500 = 400 ∧ d = "NGROK_AUTHTOKEN ausente" ∧ out.2 = w0) ∨
  (Py.truthy (NGROK_AUTHTOKEN cfg0) = true ∧
   500 = 500 ∧ d = "Falha ao abrir túnel ngrok" ∧
   out.2 = mkWorld (STATE w0) (STATE_DB w0) (dirs w0)
                   (EvTerminate :: failed_polls 40 ++ ngrok_spawned cfg0 8080 w0)).
Proof.
  apply (start_ngrok_failure cfg0 ext_no_tunnel 8080 w0).
  by vm_compute.
Defined.

Lemma start_ngrok_success_witness :
  let out := start_ngrok cfg0 ext_ok 8080 w0 in
  ∃ k, (k < 40)%nat ∧
       out.2 = mkWorld (STATE w0) (STATE_DB w0) (dirs w0)
                       (tunnels_api :: failed_polls k ++ ngrok_spawned cfg0 8080 w0) ∧
       tunnel_url (ext_tunnels ext_ok (trace out.2)) = Some "http://x.ngrok.io".
Proof.
  apply (start_ngrok_success cfg0 ext_ok 8080 w0).
  by vm_compute.
Defined.

Lemma start_ngrok_wants_http_witness :
  ∃ w', start_ngrok cfg0 ext_https_only 8080 w0
        = (inl (HTTPException 500 "Falha ao abrir túnel ngrok"), w').
Proof.
  apply (start_ngrok_wants_http cfg0 ext_https_only 8080 w0).
  - reflexivity.
  - intros tr tunnels [= <-] t Ht. apply list_elem_of_singleton in Ht as ->.
    discriminate.
Defined.

Lemma provision_commits_record_witness :
  let out := provision cfg0 ext_ok (req_x (Some 10)) w0 in
  let id := "feature-x-abc1234-012345" in
  let commit := "abc1234def5678abc1234def5678abc1234def56" in
  "web" ∈ ALLOWED cfg0 ∧
  (∃ hex, id = make_env_id "feature/x" commit hex) ∧
  (∃ rec, STATE out.2 !! id = Some rec ∧
          env_branch rec = "feature/x" ∧ sha rec = commit ∧
          url rec = "http://x.ngrok.io" ∧ expires_at rec = 1613 ∧
          port rec = 8080 ∧
          workdir rec = path_join (BASE cfg0) id ∧
          workdir rec ∈ dirs out.2) ∧
  (∀ k, k ≠ id → STATE out.2 !! k = STATE w0 !! k) ∧
  STATE_DB out.2 = STATE out.2.
Proof.
  apply (provision_commits_record cfg0 ext_ok (req_x (Some 10)) w0
           (provision cfg0 ext_ok (req_x (Some 10)) w0).2
           (mkProvisionResp "feature-x-abc1234-012345" "http://x.ngrok.io" 1613
              "abc1234def5678abc1234def5678abc1234def56")).
  by vm_compute.
Defined.

Lemma provision_then_list_witness :
  let w' := (provision cfg0 ext_ok (req_x (Some 10)) w0).2 in
  ∃ items it,
    list_envs ext_ok w' = (inr items, clock_read w') ∧ it ∈ items ∧
    item_env_id it = "feature-x-abc1234-012345" ∧
    url (item_env it) = "http://x.ngrok.io" ∧
    expires_at (item_env it) = 1613 ∧
    ttl_min it = Z.max 0 ((1613 - ext_time ext_ok (EvTime :: trace w')) `div` 60).
Proof.
  apply (provision_then_list cfg0 ext_ok (req_x (Some 10)) w0
           (provision cfg0 ext_ok (req_x (Some 10)) w0).2
           (mkProvisionResp "feature-x-abc1234-012345" "http://x.ngrok.io" 1613
              "abc1234def5678abc1234def5678abc1234def56")).
  by vm_compute.
Defined.




Lemma store_file_mirrors_table_witness :
  synced (run_ops cfg0 ext_ok a_session w0).
Proof.
  apply (store_file_mirrors_table cfg0 ext_ok a_session w0).
  - by intros tr.
  - reflexivity.
Defined.

Lemma gc_before_any_expiry_witness :
  garbage_collect ext_ok w_taken = (inr [], clock_read w_taken).
Proof.
  apply (gc_before_any_expiry ext_ok w_taken).
  intros k v H. unfold w_taken in H. simpl in H.
  apply lookup_singleton_Some in H as [_ <-]. by vm_compute.
Defined.
